(** * kubectl-debug: the debug command of pkg/plugin/cmd.go

    A shallow embedding of [DebugOptions] and its methods ([Complete],
    [Validate], [Run], [getContainerIdByName], [remoteExecute],
    [setupTTY]) and of the cobra handler built by [NewDebugCmd], together
    with the properties of the session protocol that the design document
    states about them.

    Go strings are byte sequences: they are Rocq [string]s, whose
    characters are 8-bit [ascii] values.  A Go [int] is a [Z].  A slice
    that may be nil is an [option (list _)].  Methods with a pointer
    receiver run in a small state monad whose state holds the receiver,
    the mode of the local terminal device and the trace of what the
    process printed and which collaborators it called; a Go panic is a
    result of its own. *)

From Stdlib Require Import ZArith List String Ascii Bool Lia.
From Stdlib Require Import DecimalString.
From stdpp Require Import gmap strings sorting.
Import ListNotations.

Local Open Scope string_scope.
Local Open Scope Z_scope.

(** ** Go values *)

Definition LF : string := String "010"%char EmptyString.
Definition CR : string := String "013"%char EmptyString.

(** [error]: every error the file builds comes from [fmt.Errorf], and the
    collaborators' errors are only ever printed or passed on. *)
Inductive error : Type := Errorf (msg : string).

Definition Error (e : error) : string := let 'Errorf msg := e in msg.

(** A slice, nil or not. *)
Definition slice (A : Type) : Type := option (list A).

Definition len {A : Type} (s : slice A) : Z :=
  match s with
  | None => 0
  | Some l => Z.of_nat (length l)
  end.

(** [len(s)] of a string. *)
Definition strlen (s : string) : Z := Z.of_nat (String.length s).

(** The verb [%d] on an [int]. *)
Definition fmt_d (n : Z) : string := NilZero.string_of_int (Z.to_int n).

(** ** The Kubernetes objects the command reads *)

(** [corev1.PodPhase] is a string type. *)
Definition PodPhase : Type := string.
Definition PodPending : PodPhase := "Pending".
Definition PodRunning : PodPhase := "Running".
Definition PodSucceeded : PodPhase := "Succeeded".
Definition PodFailed : PodPhase := "Failed".
Definition PodUnknown : PodPhase := "Unknown".

Record Container : Type := mkContainer { c_Name : string }.

Record ContainerStatus : Type := mkContainerStatus {
  cs_Name : string;
  cs_Ready : bool;
  cs_ContainerID : string
}.

Record PodSpec : Type := mkPodSpec { Containers : list Container }.

Record PodStatus : Type := mkPodStatus {
  Phase : PodPhase;
  HostIP : string;
  ContainerStatuses : list ContainerStatus
}.

Record Pod : Type := mkPod { Spec : PodSpec; Status : PodStatus }.

(** ** Streams, the terminal and the transport *)

(** An [io.Reader] or [io.Writer] of the options: the descriptor behind
    it, and whether that descriptor is the local terminal device. *)
Record Stream : Type := mkStream { fd : Z; isatty : bool }.

Record IOStreams : Type := mkIOStreams {
  ios_In : option Stream;
  ios_Out : option Stream;
  ios_ErrOut : option Stream
}.

(** The line discipline of the local terminal device: echo and canonical
    (line-buffered) input are what raw mode turns off; [c_other] stands
    for every other setting of the device. *)
Record Termios : Type := mkTermios {
  c_echo : bool;
  c_icanon : bool;
  c_other : Z
}.

Definition MakeRaw (s : Termios) : Termios :=
  {| c_echo := false; c_icanon := false; c_other := c_other s |}.

(** [term.TTY] of pkg/util, as far as cmd.go uses its fields. *)
Record TTY : Type := mkTTY {
  tty_In : option Stream;
  tty_Out : option Stream;
  tty_Raw : bool
}.

(** [remotecommand.TerminalSizeQueue]: the resize event source. *)
Inductive TerminalSizeQueue : Type := sizeQueueOf (out : Stream).

Inductive RestConfig : Type := restConfig (host : string).

(** [url.URL], as far as cmd.go touches it. *)
Record URL : Type := mkURL {
  Scheme : string;
  Host : string;
  Path : string;
  RawQuery : string
}.

Record StreamOptions : Type := mkStreamOptions {
  so_Stdin : option Stream;
  so_Stdout : option Stream;
  so_Stderr : option Stream;
  so_Tty : bool;
  so_TerminalSizeQueue : option TerminalSizeQueue
}.

(** [coreclient.PodsGetter]: the lookup [Pods(namespace).Get(name, _)]. *)
Definition PodsGetter : Type := string -> string -> Pod + error.

(** [genericclioptions.ConfigFlags], through the loader it yields:
    what [Namespace()] and [ClientConfig()] return. *)
Record ConfigFlags : Type := mkConfigFlags {
  loader_Namespace : string * option error;
  loader_ClientConfig : option RestConfig * option error
}.

(** [Config] of pkg/plugin/config.go, as far as [Complete] reads it. *)
Record Config : Type := mkConfig {
  cfg_AgentPort : Z;
  cfg_Image : string;
  cfg_Command : slice string
}.

(** [&Config{}] *)
Definition emptyConfig : Config :=
  {| cfg_AgentPort := 0; cfg_Image := ""; cfg_Command := None |}.

Record User : Type := mkUser { HomeDir : string }.

(** ** DebugOptions *)

Record DebugOptions : Type := mkDebugOptions {
  Namespace : string;
  PodName : string;
  RetainContainer : bool;
  Image : string;
  ContainerName : string;
  Command : slice string;
  AgentPort : Z;
  ConfigLocation : string;
  Flags : option ConfigFlags;
  PodClient : option PodsGetter;
  Args : slice string;
  Config_ : option RestConfig;
  In : option Stream;
  Out : option Stream;
  ErrOut : option Stream
}.

Definition defaultImage : string := "nicolaka/netshoot:latest".
Definition defaultAgentPort : Z := 10027.
Definition defaultConfigLocation : string := "/.kube/debug-config".

(** [new(DebugOptions)] *)
Definition zeroDebugOptions : DebugOptions :=
  {| Namespace := ""; PodName := ""; RetainContainer := false; Image := "";
     ContainerName := ""; Command := None; AgentPort := 0;
     ConfigLocation := ""; Flags := None; PodClient := None; Args := None;
     Config_ := None; In := None; Out := None; ErrOut := None |}.

Definition DebugOptionsFunc : Type := DebugOptions -> DebugOptions.

Definition NewDebugOptions (option : list DebugOptionsFunc) : DebugOptions :=
  fold_left (fun object f => f object) option zeroDebugOptions.

Definition DebugOptionsFlags (flag : option ConfigFlags) : DebugOptionsFunc :=
  fun o =>
    {| Namespace := Namespace o; PodName := PodName o;
       RetainContainer := RetainContainer o; Image := Image o;
       ContainerName := ContainerName o; Command := Command o;
       AgentPort := AgentPort o; ConfigLocation := ConfigLocation o;
       Flags := flag; PodClient := PodClient o; Args := Args o;
       Config_ := Config_ o; In := In o; Out := Out o; ErrOut := ErrOut o |}.

Definition DebugOptionsIOStreams (streams : IOStreams) : DebugOptionsFunc :=
  fun o =>
    {| Namespace := Namespace o; PodName := PodName o;
       RetainContainer := RetainContainer o; Image := Image o;
       ContainerName := ContainerName o; Command := Command o;
       AgentPort := AgentPort o; ConfigLocation := ConfigLocation o;
       Flags := Flags o; PodClient := PodClient o; Args := Args o;
       Config_ := Config_ o; In := ios_In streams; Out := ios_Out streams;
       ErrOut := ios_ErrOut streams |}.

(** ** What the process does, as a trace *)

Inductive Event : Type :=
| EvStdout (text : string)
    (** [fmt.Print*]: text on the process's standard output *)
| EvDump (label : string)
    (** a diagnostic [fmt.Print*] that dumps a whole object; [label] is
        the constant part of what it prints *)
| EvLog (text : string)
    (** [log.Println] *)
| EvWrite (w : Stream) (text : string)
    (** [fmt.Fprint*] on a stream of the options *)
| EvPodGet (ns name : string)
    (** the pod lookup on the cluster *)
| EvMonitorSize (t : TTY)
    (** [t.MonitorSize(t.GetSize())] *)
| EvNewSPDYExecutor (config : option RestConfig) (method : string) (u : URL)
    (** the request handed to the executor *)
| EvStream (u : URL) (opts : StreamOptions).
    (** [exec.Stream]: the agent endpoint is dialled *)

(** ** The state monad of the receiver *)

Record Machine : Type := mkMachine {
  opts : DebugOptions;
  termios : Termios;
  trace : list Event
}.

Inductive Res (A : Type) : Type :=
| Val (a : A)
| Panic (msg : string).
Arguments Val {A} a.
Arguments Panic {A} msg.

Definition M (A : Type) : Type := Machine -> Res A * Machine.

Definition ret {A : Type} (a : A) : M A := fun m => (Val a, m).

Definition bind {A B : Type} (c : M A) (k : A -> M B) : M B :=
  fun m =>
    match c m with
    | (Val a, m') => k a m'
    | (Panic msg, m') => (Panic msg, m')
    end.

Declare Scope go_scope.
Delimit Scope go_scope with go.
Notation "x <- c ;; k" := (bind c (fun x => k))
  (at level 100, c at next level, right associativity) : go_scope.
Notation "c ;; k" := (bind c (fun _ => k))
  (at level 100, right associativity) : go_scope.
Local Open Scope go_scope.

Definition panic {A : Type} (msg : string) : M A := fun m => (Panic msg, m).

Definition nilDereference : string :=
  "runtime error: invalid memory address or nil pointer dereference".
Definition indexOutOfRange : string :=
  "runtime error: index out of range".

Definition getOpts : M DebugOptions := fun m => (Val (opts m), m).

Definition modifyOpts (f : DebugOptions -> DebugOptions) : M unit :=
  fun m => (Val tt, {| opts := f (opts m); termios := termios m; trace := trace m |}).

Definition emit (e : Event) : M unit :=
  fun m => (Val tt, {| opts := opts m; termios := termios m; trace := trace m ++ [e] |}).

Definition setTermios (s : Termios) : M unit :=
  fun m => (Val tt, {| opts := opts m; termios := s; trace := trace m |}).

(** A method call on an interface or pointer value that may be nil. *)
Definition deref {A : Type} (p : option A) : M A :=
  match p with
  | Some a => ret a
  | None => panic nilDereference
  end.

(** [s[0]] *)
Definition index0 {A : Type} (s : list A) : M A :=
  match s with
  | a :: _ => ret a
  | [] => panic indexOutOfRange
  end.

(** [fmt.Println(s)] with one string operand. *)
Definition Println (s : string) : M unit := emit (EvStdout (s ++ LF)).

(** [fmt.Fprint*(w, ...)]: the write goes through the interface value. *)
Definition Fprint (w : option Stream) (text : string) : M unit :=
  s <- deref w ;; emit (EvWrite s text).

(** ** Bytes *)

Definition code (a : ascii) : Z := Z.of_N (N_of_ascii a).

(** [byte(z)]: the conversion keeps the low eight bits. *)
Definition chr (z : Z) : ascii := ascii_of_N (Z.to_N z).

Fixpoint skipn_string (n : nat) (s : string) : string :=
  match n, s with
  | O, _ => s
  | S _, EmptyString => EmptyString
  | S k, String _ rest => skipn_string k rest
  end.

Fixpoint firstn_string (n : nat) (s : string) : string :=
  match n, s with
  | O, _ => EmptyString
  | S _, EmptyString => EmptyString
  | S k, String a rest => String a (firstn_string k rest)
  end.

(** ** unicode/utf8 and unicode/utf16, as encoding/json uses them *)

Module utf8.

Definition RuneError : Z := 0xFFFD.
Definition RuneSelf : Z := 0x80.
Definition MaxRune : Z := 0x10FFFF.

Definition surrogateMin : Z := 0xD800.
Definition surrogateMax : Z := 0xDFFF.

Definition t2 : Z := 0xC0.
Definition t3 : Z := 0xE0.
Definition t4 : Z := 0xF0.
Definition tx : Z := 0x80.
Definition maskx : Z := 0x3F.
Definition mask2 : Z := 0x1F.
Definition mask3 : Z := 0x0F.
Definition mask4 : Z := 0x07.

Definition rune1Max : Z := 0x7F.
Definition rune2Max : Z := 0x7FF.
Definition rune3Max : Z := 0xFFFF.

Definition locb : Z := 0x80.
Definition hicb : Z := 0xBF.

(** The table [first] with [acceptRanges]: for a leading byte that opens
    a multi-byte sequence, the length of the sequence and the range
    accepted for the second byte; [None] for a byte that cannot open one. *)
Definition first (p0 : Z) : option (nat * Z * Z) :=
  if p0 <? 0xC2 then None
  else if p0 <=? 0xDF then Some (2%nat, locb, hicb)
  else if p0 =? 0xE0 then Some (3%nat, 0xA0, hicb)
  else if p0 =? 0xED then Some (3%nat, locb, 0x9F)
  else if p0 <=? 0xEF then Some (3%nat, locb, hicb)
  else if p0 =? 0xF0 then Some (4%nat, 0x90, hicb)
  else if p0 <=? 0xF3 then Some (4%nat, locb, hicb)
  else if p0 =? 0xF4 then Some (4%nat, locb, 0x8F)
  else None.

Definition cont (b : Z) : bool := (locb <=? b) && (b <=? hicb).

Definition DecodeRune (p : string) : Z * nat :=
  match p with
  | EmptyString => (RuneError, 0%nat)
  | String a0 p1 =>
    let p0 := code a0 in
    if p0 <? RuneSelf then (p0, 1%nat)
    else
      match first p0 with
      | None => (RuneError, 1%nat)
      | Some (sz, lo, hi) =>
        match p1 with
        | EmptyString => (RuneError, 1%nat)
        | String a1 p2 =>
          let b1 := code a1 in
          if (b1 <? lo) || (hi <? b1) then (RuneError, 1%nat)
          else if (sz <=? 2)%nat then
            (Z.lor (Z.shiftl (Z.land p0 mask2) 6) (Z.land b1 maskx), 2%nat)
          else
            match p2 with
            | EmptyString => (RuneError, 1%nat)
            | String a2 p3 =>
              let b2 := code a2 in
              if negb (cont b2) then (RuneError, 1%nat)
              else if (sz <=? 3)%nat then
                (Z.lor (Z.lor (Z.shiftl (Z.land p0 mask3) 12)
                              (Z.shiftl (Z.land b1 maskx) 6))
                       (Z.land b2 maskx), 3%nat)
              else
                match p3 with
                | EmptyString => (RuneError, 1%nat)
                | String a3 _ =>
                  let b3 := code a3 in
                  if negb (cont b3) then (RuneError, 1%nat)
                  else
                    (Z.lor (Z.lor (Z.lor (Z.shiftl (Z.land p0 mask4) 18)
                                         (Z.shiftl (Z.land b1 maskx) 12))
                                  (Z.shiftl (Z.land b2 maskx) 6))
                           (Z.land b3 maskx), 4%nat)
                end
            end
        end
      end
  end.

Definition encode3 (r : Z) : string :=
  String (chr (Z.lor t3 (Z.shiftr r 12)))
    (String (chr (Z.lor tx (Z.land (Z.shiftr r 6) maskx)))
      (String (chr (Z.lor tx (Z.land r maskx))) EmptyString)).

(** [EncodeRune]: the bytes written. *)
Definition EncodeRune (r : Z) : string :=
  if (0 <=? r) && (r <=? rune1Max) then String (chr r) EmptyString
  else if (0 <=? r) && (r <=? rune2Max) then
    String (chr (Z.lor t2 (Z.shiftr r 6)))
      (String (chr (Z.lor tx (Z.land r maskx))) EmptyString)
  else if (r <? 0) || (MaxRune <? r)
          || ((surrogateMin <=? r) && (r <=? surrogateMax)) then
    encode3 RuneError
  else if r <=? rune3Max then encode3 r
  else
    String (chr (Z.lor t4 (Z.shiftr r 18)))
      (String (chr (Z.lor tx (Z.land (Z.shiftr r 12) maskx)))
        (String (chr (Z.lor tx (Z.land (Z.shiftr r 6) maskx)))
          (String (chr (Z.lor tx (Z.land r maskx))) EmptyString))).

(** [ValidString]: no position decodes to a one-byte [RuneError]. *)
Fixpoint ValidString_loop (fuel : nat) (s : string) : bool :=
  match s with
  | EmptyString => true
  | String _ _ =>
    match fuel with
    | O => false
    | S fuel' =>
      let '(c, size) := DecodeRune s in
      if (c =? RuneError) && (size =? 1)%nat then false
      else ValidString_loop fuel' (skipn_string size s)
    end
  end.

Definition ValidString (s : string) : bool :=
  ValidString_loop (String.length s) s.

End utf8.

Module utf16.

Definition surr1 : Z := 0xD800.
Definition surr2 : Z := 0xDC00.
Definition surr3 : Z := 0xE000.
Definition surrSelf : Z := 0x10000.
Definition replacementChar : Z := 0xFFFD.

Definition IsSurrogate (r : Z) : bool := (surr1 <=? r) && (r <? surr3).

Definition DecodeRune (r1 r2 : Z) : Z :=
  if (surr1 <=? r1) && (r1 <? surr2) && (surr2 <=? r2) && (r2 <? surr3)
  then Z.lor (Z.shiftl (r1 - surr1) 10) (r2 - surr2) + surrSelf
  else replacementChar.

End utf16.

(** ** encoding/json: what [json.Marshal] writes for a [[]string] *)

Module json.

Definition quote : ascii := "034"%char.
Definition backslash : ascii := "092"%char.

Definition hex : string := "0123456789abcdef".

(** [hex[n]] for [n] below sixteen. *)
Definition hexDigit (n : Z) : ascii :=
  match String.get (Z.to_nat n) hex with
  | Some a => a
  | None => "0"%char
  end.

(** [htmlSafeSet]: the ASCII bytes copied as they are when HTML escaping
    is on, as it is in [Marshal]: everything from the space up except
    the quote, the backslash and the three characters [<], [>], [&]. *)
Definition htmlSafeSet (b : Z) : bool :=
  (0x20 <=? b) && (b <? 0x80)
  && negb (b =? 0x22) && negb (b =? 0x26) && negb (b =? 0x3C)
  && negb (b =? 0x3E) && negb (b =? 0x5C).

(** The escape written for an ASCII byte outside [htmlSafeSet]. *)
Definition escape (a : ascii) : string :=
  let b := code a in
  if (b =? 0x5C) || (b =? 0x22) then String backslash (String a EmptyString)
  else if b =? 0x0A then String backslash "n"
  else if b =? 0x0D then String backslash "r"
  else if b =? 0x09 then String backslash "t"
  else
    String backslash
      (String "u" (String "0" (String "0"
        (String (hexDigit (Z.shiftr b 4))
          (String (hexDigit (Z.land b 0xF)) EmptyString))))).

(** The loop of [encodeState.string] between the two quotes.  Every turn
    consumes at least one byte of [src], so [fuel] equal to the length
    of [src] is enough (see [string_loop_fuel]). *)
Fixpoint string_loop (fuel : nat) (src : string) : string :=
  match src with
  | EmptyString => EmptyString
  | String a rest =>
    match fuel with
    | O => EmptyString
    | S fuel' =>
      let b := code a in
      if b <? utf8.RuneSelf then
        if htmlSafeSet b then String a (string_loop fuel' rest)
        else escape a ++ string_loop fuel' rest
      else
        let '(c, size) := utf8.DecodeRune src in
        if (c =? utf8.RuneError) && (size =? 1)%nat then
          String backslash "ufffd" ++ string_loop fuel' rest
        else if (c =? 0x2028) || (c =? 0x2029) then
          String backslash "u202"
            ++ String (hexDigit (Z.land c 0xF)) EmptyString
            ++ string_loop fuel' (skipn_string size src)
        else
          firstn_string size src ++ string_loop fuel' (skipn_string size src)
    end
  end.

(** [encodeState.string(s, escapeHTML = true)] *)
Definition encodeString (s : string) : string :=
  String quote (string_loop (String.length s) s ++ String quote EmptyString).

Fixpoint encodeElems (l : list string) : string :=
  match l with
  | [] => EmptyString
  | [s] => encodeString s
  | s :: rest => encodeString s ++ "," ++ encodeElems rest
  end.

(** What the slice encoder writes: [null] for a nil slice, else the
    elements in order between brackets. *)
Definition encodeSlice (v : slice string) : string :=
  match v with
  | None => "null"
  | Some l => "[" ++ encodeElems l ++ "]"
  end.

(** [json.Marshal(v)] for [v] a [[]string]; no such value is
    unsupported, so the error is always nil. *)
Definition Marshal (v : slice string) : string + error := inl (encodeSlice v).

(** *** Decoding into a [[]string]

    [json.Unmarshal] first scans the text for validity, then decodes it;
    a string literal is delimited by the scanner and unescaped by
    [unquote].  Here both happen in one pass over the literal. *)

Definition hexVal (a : ascii) : option Z :=
  let c := code a in
  if (0x30 <=? c) && (c <=? 0x39) then Some (c - 0x30)
  else if (0x61 <=? c) && (c <=? 0x66) then Some (c - 0x61 + 10)
  else if (0x41 <=? c) && (c <=? 0x46) then Some (c - 0x41 + 10)
  else None.

(** [getu4]: the rune of a [\uXXXX] at the head of [s], or -1. *)
Definition getu4 (s : string) : Z :=
  match s with
  | String b0 (String b1 (String h0 (String h1 (String h2 (String h3 _))))) =>
    if (code b0 =? 0x5C) && (code b1 =? 0x75) then
      match hexVal h0, hexVal h1, hexVal h2, hexVal h3 with
      | Some d0, Some d1, Some d2, Some d3 =>
        ((d0 * 16 + d1) * 16 + d2) * 16 + d3
      | _, _, _, _ => -1
      end
    else -1
  | _ => -1
  end.

(** The decoded bytes so far, put before what the rest decodes to. *)
Definition emitted (prefix : string) (r : option (string * string))
  : option (string * string) :=
  match r with
  | Some (decoded, rest) => Some (prefix ++ decoded, rest)
  | None => None
  end.

(** The body of a string literal, from after the opening quote: the
    decoded string and the text after the closing quote.  [None] is a
    syntax error: a control character, a bad escape, no closing quote.
    Every turn consumes at least one byte, so [fuel] equal to the length
    of [s] is enough. *)
Fixpoint unquote_loop (fuel : nat) (s : string) : option (string * string) :=
  match fuel with
  | O => None
  | S fuel' =>
    match s with
    | EmptyString => None
    | String a rest =>
      let c := code a in
      if c =? 0x22 then Some (EmptyString, rest)
      else if c =? 0x5C then
        match rest with
        | EmptyString => None
        | String e rest' =>
          let ec := code e in
          if (ec =? 0x22) || (ec =? 0x5C) || (ec =? 0x2F) then
            emitted (String e EmptyString) (unquote_loop fuel' rest')
          else if ec =? 0x62 then
            emitted (String (chr 0x08) EmptyString) (unquote_loop fuel' rest')
          else if ec =? 0x66 then
            emitted (String (chr 0x0C) EmptyString) (unquote_loop fuel' rest')
          else if ec =? 0x6E then
            emitted (String (chr 0x0A) EmptyString) (unquote_loop fuel' rest')
          else if ec =? 0x72 then
            emitted (String (chr 0x0D) EmptyString) (unquote_loop fuel' rest')
          else if ec =? 0x74 then
            emitted (String (chr 0x09) EmptyString) (unquote_loop fuel' rest')
          else if ec =? 0x75 then
            let rr := getu4 s in
            if rr <? 0 then None
            else
              let s6 := skipn_string 6 s in
              if utf16.IsSurrogate rr then
                let dec := utf16.DecodeRune rr (getu4 s6) in
                if negb (dec =? utf16.replacementChar) then
                  emitted (utf8.EncodeRune dec)
                    (unquote_loop fuel' (skipn_string 6 s6))
                else
                  emitted (utf8.EncodeRune utf16.replacementChar)
                    (unquote_loop fuel' s6)
              else emitted (utf8.EncodeRune rr) (unquote_loop fuel' s6)
          else None
        end
      else if c <? 0x20 then None
      else if c <? utf8.RuneSelf then
        emitted (String a EmptyString) (unquote_loop fuel' rest)
      else
        let '(rr, size) := utf8.DecodeRune s in
        emitted (utf8.EncodeRune rr) (unquote_loop fuel' (skipn_string size s))
    end
  end.

Definition isSpace (a : ascii) : bool :=
  let c := code a in
  (c =? 0x20) || (c =? 0x09) || (c =? 0x0D) || (c =? 0x0A).

Fixpoint skipSpace (s : string) : string :=
  match s with
  | EmptyString => EmptyString
  | String a rest => if isSpace a then skipSpace rest else s
  end.

(** A string literal at the head of [s]. *)
Definition decodeString (s : string) : option (string * string) :=
  match s with
  | String a rest =>
    if code a =? 0x22 then unquote_loop (String.length rest) rest else None
  | EmptyString => None
  end.

(** The elements of an array from its first element on, up to the
    closing bracket, after which only white space may follow. *)
Fixpoint decodeElems (fuel : nat) (s : string) : option (list string) :=
  match fuel with
  | O => None
  | S fuel' =>
    match decodeString (skipSpace s) with
    | None => None
    | Some (elem, rest) =>
      match skipSpace rest with
      | String a rest' =>
        if code a =? 0x2C then
          match decodeElems fuel' rest' with
          | Some elems => Some (elem :: elems)
          | None => None
          end
        else if code a =? 0x5D then
          match skipSpace rest' with
          | EmptyString => Some [elem]
          | String _ _ => None
          end
        else None
      | EmptyString => None
      end
    end
  end.

(** [json.Unmarshal(data, &v)] for [v] a [[]string]: the value stored
    in [v], or the error.  [null] leaves the nil slice. *)
Definition Unmarshal (data : string) : slice string + error :=
  match skipSpace data with
  | String a rest =>
    if code a =? 0x5B then
      match skipSpace rest with
      | String b rest' =>
        if code b =? 0x5D then
          match skipSpace rest' with
          | EmptyString => inl (Some [])
          | String _ _ => inr (Errorf "invalid character after top-level value")
          end
        else
          match decodeElems (String.length rest) rest with
          | Some elems => inl (Some elems)
          | None => inr (Errorf "json: cannot unmarshal into Go value of type []string")
          end
      | EmptyString => inr (Errorf "unexpected end of JSON input")
      end
    else if String.eqb (skipSpace data) "null" then inl None
    else inr (Errorf "json: cannot unmarshal into Go value of type []string")
  | EmptyString => inr (Errorf "unexpected end of JSON input")
  end.

End json.

(** ** net/url: query values and their encoding *)

Module url.

Definition upperhex : string := "0123456789ABCDEF".

Definition upperhexDigit (n : Z) : ascii :=
  match String.get (Z.to_nat n) upperhex with
  | Some a => a
  | None => "0"%char
  end.

Definition isAlnum (c : Z) : bool :=
  ((0x61 <=? c) && (c <=? 0x7A)) || ((0x41 <=? c) && (c <=? 0x5A))
  || ((0x30 <=? c) && (c <=? 0x39)).

(** [shouldEscape(c, encodeQueryComponent)]: only the unreserved
    characters pass. *)
Definition shouldEscape (c : Z) : bool :=
  negb (isAlnum c || (c =? 0x2D) || (c =? 0x5F) || (c =? 0x2E) || (c =? 0x7E)).

Fixpoint QueryEscape (s : string) : string :=
  match s with
  | EmptyString => EmptyString
  | String a rest =>
    let c := code a in
    if shouldEscape c then
      if c =? 0x20 then String "+" (QueryEscape rest)
      else String "%" (String (upperhexDigit (Z.shiftr c 4))
             (String (upperhexDigit (Z.land c 15)) (QueryEscape rest)))
    else String a (QueryEscape rest)
  end.

(** [url.Values] is a [map[string][]string]. *)
Abbreviation Values := (gmap string (list string)).

Definition Add (key value : string) (v : Values) : Values :=
  <[key := (default [] (v !! key) ++ [value])%list]> v.

(** [sort.Strings] on the keys of the map: bytewise order. *)
Definition sortedKeys (v : Values) : list string :=
  merge_sort String.le (map fst (map_to_list v)).

(** [Values.Encode]: keys in sorted order, one [key=value] per value,
    joined by [&]. *)
Definition Encode (v : Values) : string :=
  fold_left
    (fun buf k =>
       let keyEscaped := QueryEscape k in
       fold_left
         (fun buf val =>
            (if 0 <? strlen buf then buf ++ "&" else buf)
              ++ keyEscaped ++ "=" ++ QueryEscape val)
         (default [] (v !! k)) buf)
    (sortedKeys v) EmptyString.

End url.

(** ** Field updates of the receiver *)

Definition set_Namespace (v : string) (o : DebugOptions) : DebugOptions :=
  {| Namespace := v; PodName := PodName o;
     RetainContainer := RetainContainer o; Image := Image o;
     ContainerName := ContainerName o; Command := Command o;
     AgentPort := AgentPort o; ConfigLocation := ConfigLocation o;
     Flags := Flags o; PodClient := PodClient o; Args := Args o;
     Config_ := Config_ o; In := In o; Out := Out o; ErrOut := ErrOut o |}.

Definition set_PodName (v : string) (o : DebugOptions) : DebugOptions :=
  {| Namespace := Namespace o; PodName := v;
     RetainContainer := RetainContainer o; Image := Image o;
     ContainerName := ContainerName o; Command := Command o;
     AgentPort := AgentPort o; ConfigLocation := ConfigLocation o;
     Flags := Flags o; PodClient := PodClient o; Args := Args o;
     Config_ := Config_ o; In := In o; Out := Out o; ErrOut := ErrOut o |}.

Definition set_Image (v : string) (o : DebugOptions) : DebugOptions :=
  {| Namespace := Namespace o; PodName := PodName o;
     RetainContainer := RetainContainer o; Image := v;
     ContainerName := ContainerName o; Command := Command o;
     AgentPort := AgentPort o; ConfigLocation := ConfigLocation o;
     Flags := Flags o; PodClient := PodClient o; Args := Args o;
     Config_ := Config_ o; In := In o; Out := Out o; ErrOut := ErrOut o |}.

Definition set_Command (v : slice string) (o : DebugOptions) : DebugOptions :=
  {| Namespace := Namespace o; PodName := PodName o;
     RetainContainer := RetainContainer o; Image := Image o;
     ContainerName := ContainerName o; Command := v;
     AgentPort := AgentPort o; ConfigLocation := ConfigLocation o;
     Flags := Flags o; PodClient := PodClient o; Args := Args o;
     Config_ := Config_ o; In := In o; Out := Out o; ErrOut := ErrOut o |}.

Definition set_AgentPort (v : Z) (o : DebugOptions) : DebugOptions :=
  {| Namespace := Namespace o; PodName := PodName o;
     RetainContainer := RetainContainer o; Image := Image o;
     ContainerName := ContainerName o; Command := Command o;
     AgentPort := v; ConfigLocation := ConfigLocation o;
     Flags := Flags o; PodClient := PodClient o; Args := Args o;
     Config_ := Config_ o; In := In o; Out := Out o; ErrOut := ErrOut o |}.

Definition set_PodClient (v : option PodsGetter) (o : DebugOptions) : DebugOptions :=
  {| Namespace := Namespace o; PodName := PodName o;
     RetainContainer := RetainContainer o; Image := Image o;
     ContainerName := ContainerName o; Command := Command o;
     AgentPort := AgentPort o; ConfigLocation := ConfigLocation o;
     Flags := Flags o; PodClient := v; Args := Args o;
     Config_ := Config_ o; In := In o; Out := Out o; ErrOut := ErrOut o |}.

Definition set_Args (v : slice string) (o : DebugOptions) : DebugOptions :=
  {| Namespace := Namespace o; PodName := PodName o;
     RetainContainer := RetainContainer o; Image := Image o;
     ContainerName := ContainerName o; Command := Command o;
     AgentPort := AgentPort o; ConfigLocation := ConfigLocation o;
     Flags := Flags o; PodClient := PodClient o; Args := v;
     Config_ := Config_ o; In := In o; Out := Out o; ErrOut := ErrOut o |}.

Definition set_Config (v : option RestConfig) (o : DebugOptions) : DebugOptions :=
  {| Namespace := Namespace o; PodName := PodName o;
     RetainContainer := RetainContainer o; Image := Image o;
     ContainerName := ContainerName o; Command := Command o;
     AgentPort := AgentPort o; ConfigLocation := ConfigLocation o;
     Flags := Flags o; PodClient := PodClient o; Args := Args o;
     Config_ := v; In := In o; Out := Out o; ErrOut := ErrOut o |}.

Definition set_In (v : option Stream) (o : DebugOptions) : DebugOptions :=
  {| Namespace := Namespace o; PodName := PodName o;
     RetainContainer := RetainContainer o; Image := Image o;
     ContainerName := ContainerName o; Command := Command o;
     AgentPort := AgentPort o; ConfigLocation := ConfigLocation o;
     Flags := Flags o; PodClient := PodClient o; Args := Args o;
     Config_ := Config_ o; In := v; Out := Out o; ErrOut := ErrOut o |}.

Definition set_Out (v : option Stream) (o : DebugOptions) : DebugOptions :=
  {| Namespace := Namespace o; PodName := PodName o;
     RetainContainer := RetainContainer o; Image := Image o;
     ContainerName := ContainerName o; Command := Command o;
     AgentPort := AgentPort o; ConfigLocation := ConfigLocation o;
     Flags := Flags o; PodClient := PodClient o; Args := Args o;
     Config_ := Config_ o; In := In o; Out := v; ErrOut := ErrOut o |}.

Definition set_ErrOut (v : option Stream) (o : DebugOptions) : DebugOptions :=
  {| Namespace := Namespace o; PodName := PodName o;
     RetainContainer := RetainContainer o; Image := Image o;
     ContainerName := ContainerName o; Command := Command o;
     AgentPort := AgentPort o; ConfigLocation := ConfigLocation o;
     Flags := Flags o; PodClient := PodClient o; Args := Args o;
     Config_ := Config_ o; In := In o; Out := Out o; ErrOut := v |}.

Definition set_URL_Path (v : string) (u : URL) : URL :=
  {| Scheme := Scheme u; Host := Host u; Path := v; RawQuery := RawQuery u |}.

Definition set_URL_RawQuery (v : string) (u : URL) : URL :=
  {| Scheme := Scheme u; Host := Host u; Path := Path u; RawQuery := v |}.

(** ** The collaborators outside cmd.go

    What the operating system, the cluster, the agent and the libraries
    answer.  [LoadFile] and [term_MonitorSize] belong to this repository
    (pkg/plugin/config.go and pkg/util) but not to cmd.go; the command is
    verified for whatever they return. *)
Record Env : Type := mkEnv {
  user_Current : User + error;
  LoadFile : string -> Config + error;
  kubernetes_NewForConfig : option RestConfig -> PodsGetter + error;
  dockerterm_StdStreams : Stream * Stream * Stream;
  url_Parse : string -> URL + error;
  remotecommand_NewSPDYExecutor :
    option RestConfig -> string -> URL -> option error;
  executor_Stream : URL -> StreamOptions -> option error;
  term_MonitorSize : TTY -> option TerminalSizeQueue
}.

(** ** pkg/util (package term), which cmd.go calls but does not hold *)

(** Modelled from the spec: [TTY.IsTerminalIn] of pkg/util is missing; the
    Terminal Adapter "detects whether the local input/output is an
    interactive terminal" by "probing whether the local input stream is
    attached to an interactive terminal". *)
Definition IsTerminalIn (t : TTY) : bool :=
  match tty_In t with
  | Some s => isatty s
  | None => false
  end.

Definition withTermios (s : Termios) (m : Machine) : Machine :=
  {| opts := opts m; termios := s; trace := trace m |}.

(** Modelled from the spec: [TTY.Safe] of pkg/util is missing; "whatever
    terminal mode change was applied (switching the local terminal device
    into raw mode, disabling echo/line-buffering) must be reverted before
    the adapter's scope exits, on every exit path including errors raised
    by later components".  The mode is saved, the device is switched to
    raw mode when the input is an interactive terminal and [Raw] is set,
    the body runs, and the saved mode is put back whatever the body
    returned, a panic included. *)
Definition Safe (t : TTY) (fn : M (option error)) : M (option error) :=
  fun m =>
    if IsTerminalIn t then
      let saved := termios m in
      let m1 := if tty_Raw t then withTermios (MakeRaw saved) m else m in
      let '(r, m2) := fn m1 in
      (r, withTermios saved m2)
    else fn m.

(** ** The methods of cmd.go *)

Section Methods.

Variable env : Env.

(** [Complete]: defaults from the config file under the flags.  The
    timestamp that [log.Println] puts before its text is left out. *)
Definition Complete (args : list string) (argsLenAtDash : Z) : M (option error) :=
  Println "hello i'm here, in cmd/ newDebugCmd / Complete" ;;
  modifyOpts (set_Args (Some args)) ;;
  match args with
  | [] => ret (Some (Errorf "error pod not specified"))
  | arg0 :: args1 =>
    o <- getOpts ;;
    configLoader <- deref (Flags o) ;;
    let '(ns, err) := loader_Namespace configLoader in
    modifyOpts (set_Namespace ns) ;;
    match err with
    | Some e => ret (Some e)
    | None =>
      emit (EvDump "------print flags-----") ;;
      modifyOpts (set_PodName arg0) ;;
      emit (EvDump "------print flags-----") ;;
      (* read defaults from config file *)
      o <- getOpts ;;
      let configFile :=
        if strlen (ConfigLocation o) <? 1 then
          match user_Current env with
          | inl usr => HomeDir usr ++ defaultConfigLocation
          | inr _ => ConfigLocation o
          end
        else ConfigLocation o in
      config <-
        match LoadFile env configFile with
        | inl c => ret c
        | inr e =>
          emit (EvLog ("error loading file " ++ " " ++ Error e ++ LF)) ;;
          ret emptyConfig
        end ;;
      (* combine defaults, config file and user parameters *)
      modifyOpts (set_Command (Some args1)) ;;
      o <- getOpts ;;
      (if len (Command o) <? 1 then
         if 0 <? len (cfg_Command config)
         then modifyOpts (set_Command (cfg_Command config))
         else modifyOpts (set_Command (Some ["bash"]))
       else ret tt) ;;
      o <- getOpts ;;
      (if strlen (Image o) <? 1 then
         if 0 <? strlen (cfg_Image config)
         then modifyOpts (set_Image (cfg_Image config))
         else modifyOpts (set_Image defaultImage)
       else ret tt) ;;
      o <- getOpts ;;
      (if AgentPort o <? 1 then
         if 0 <? cfg_AgentPort config
         then modifyOpts (set_AgentPort (cfg_AgentPort config))
         else modifyOpts (set_AgentPort defaultAgentPort)
       else ret tt) ;;
      let '(cfg, err) := loader_ClientConfig configLoader in
      modifyOpts (set_Config cfg) ;;
      match err with
      | Some e => ret (Some e)
      | None =>
        match kubernetes_NewForConfig env cfg with
        | inr e =>
          Println ("err; --- " ++ Error e ++ " ---NewForConfig") ;;
          ret (Some e)
        | inl clientset =>
          modifyOpts (set_PodClient (Some clientset)) ;;
          ret None
        end
      end
    end
  end.

Definition Validate : M (option error) :=
  o <- getOpts ;;
  if strlen (PodName o) =? 0 then
    ret (Some (Errorf "pod name must be specified"))
  else if len (Command o) =? 0 then
    ret (Some (Errorf "you must specify at least one command for the container"))
  else ret None.

Fixpoint getContainerIdByName_range
    (statuses : list ContainerStatus) (containerName : string)
  : string * option error :=
  match statuses with
  | [] => ("", Some (Errorf ("cannot find specified container " ++ containerName)))
  | containerStatus :: rest =>
    if negb (String.eqb (cs_Name containerStatus) containerName) then
      getContainerIdByName_range rest containerName
    else if negb (cs_Ready containerStatus) then
      ("", Some (Errorf ("container " ++ containerName ++ " id not ready")))
    else (cs_ContainerID containerStatus, None)
  end.

Definition getContainerIdByName (pod : Pod) (containerName : string)
  : string * option error :=
  getContainerIdByName_range (ContainerStatuses (Status pod)) containerName.

Definition remoteExecute (method : string) (u : URL)
    (config : option RestConfig) (stdin stdout stderr : option Stream)
    (tty : bool) (terminalSizeQueue : option TerminalSizeQueue)
  : M (option error) :=
  emit (EvNewSPDYExecutor config method u) ;;
  match remotecommand_NewSPDYExecutor env config method u with
  | Some err => ret (Some err)
  | None =>
    let so := {| so_Stdin := stdin; so_Stdout := stdout; so_Stderr := stderr;
                 so_Tty := tty; so_TerminalSizeQueue := terminalSizeQueue |} in
    emit (EvStream u so) ;;
    ret (executor_Stream env u so)
  end.

Definition setupTTY : M TTY :=
  o <- getOpts ;;
  let t := {| tty_In := None; tty_Out := Out o; tty_Raw := false |} in
  let t := {| tty_In := In o; tty_Out := tty_Out t; tty_Raw := tty_Raw t |} in
  let t := {| tty_In := tty_In t; tty_Out := tty_Out t; tty_Raw := true |} in
  if negb (IsTerminalIn t) then
    (match ErrOut o with
     | Some _ =>
       Fprint (ErrOut o)
         ("Unable to use a TTY - input is not a terminal or the right kind of file" ++ LF)
     | None => ret tt
     end) ;;
    ret t
  else
    let '(stdin, stdout, _) := dockerterm_StdStreams env in
    modifyOpts (set_In (Some stdin)) ;;
    let t := {| tty_In := Some stdin; tty_Out := tty_Out t; tty_Raw := tty_Raw t |} in
    o <- getOpts ;;
    match Out o with
    | Some _ =>
      modifyOpts (set_Out (Some stdout)) ;;
      ret {| tty_In := tty_In t; tty_Out := Some stdout; tty_Raw := tty_Raw t |}
    | None => ret t
    end.

(** [t.MonitorSize(t.GetSize())] *)
Definition MonitorSize (t : TTY) : M (option TerminalSizeQueue) :=
  emit (EvMonitorSize t) ;;
  ret (term_MonitorSize env t).

(** The closure [fn] of [Run]: it reads the receiver when it is called. *)
Definition Run_fn (hostIP containerId : string) (t : TTY)
    (sizeQueue : option TerminalSizeQueue) : M (option error) :=
  o <- getOpts ;;
  match url_Parse env ("http://" ++ hostIP ++ ":" ++ fmt_d (AgentPort o)) with
  | inr err => ret (Some err)
  | inl uri =>
    let uri := set_URL_Path "/api/v1/debug" uri in
    let params : url.Values := ∅ in
    let params := url.Add "image" (Image o) params in
    let params := url.Add "container" containerId params in
    match json.Marshal (Command o) with
    | inr err => ret (Some err)
    | inl bytes =>
      let params := url.Add "command" bytes params in
      let uri := set_URL_RawQuery (url.Encode params) uri in
      remoteExecute "POST" uri (Config_ o) (In o) (Out o) (ErrOut o)
        (tty_Raw t) sizeQueue
    end
  end.

(** [Run], lines 241 to 248: the name of the container to resolve. *)
Definition Run_containerName (pod : Pod) : M string :=
  o <- getOpts ;;
  let containerName := ContainerName o in
  if strlen containerName =? 0 then
    (if 1 <? Z.of_nat (length (Containers (Spec pod))) then
       c0 <- index0 (Containers (Spec pod)) ;;
       let usageString := "Defaulting container name to " ++ c_Name c0 ++ "." in
       Fprint (ErrOut o) (usageString ++ LF ++ CR)
     else ret tt) ;;
    c0 <- index0 (Containers (Spec pod)) ;;
    ret (c_Name c0)
  else ret containerName.

(** [Run], lines 250 to 293: resolution of the container, then the
    session. *)
Definition Run_session (pod : Pod) (hostIP containerName : string)
  : M (option error) :=
  let '(containerId, err) := getContainerIdByName pod containerName in
  match err with
  | Some e => ret (Some e)
  | None =>
    emit (EvStdout ("containerId:[" ++ containerId ++ "]" ++ LF ++ LF)) ;;
    t <- setupTTY ;;
    sizeQueue <-
      (if tty_Raw t then
         q <- MonitorSize t ;;
         modifyOpts (set_ErrOut None) ;;
         ret q
       else ret None) ;;
    r <- Safe t (Run_fn hostIP containerId t sizeQueue) ;;
    match r with
    | Some e =>
      emit (EvStdout ("error execute remote, " ++ Error e ++ LF)) ;;
      ret (Some e)
    | None => ret None
    end
  end.

Definition Run : M (option error) :=
  Println "run; function" ;;
  o <- getOpts ;;
  podClient <- deref (PodClient o) ;;
  emit (EvPodGet (Namespace o) (PodName o)) ;;
  match podClient (Namespace o) (PodName o) with
  | inr err =>
    Println "run; function; <o.PodClient.Pods>" ;;
    ret (Some err)
  | inl pod =>
    if String.eqb (Phase (Status pod)) PodSucceeded
       || String.eqb (Phase (Status pod)) PodFailed then
      ret (Some (Errorf ("cannot debug in a completed pod; current phase is "
                           ++ Phase (Status pod))))
    else
      emit (EvDump "pod:[%+v]") ;;
      let hostIP := HostIP (Status pod) in
      emit (EvStdout ("hostIP:[" ++ hostIP ++ "]" ++ LF ++ LF)) ;;
      containerName <- Run_containerName pod ;;
      Run_session pod hostIP containerName
  end.

(** The [Run] function of the cobra command that [NewDebugCmd] builds. *)
Definition NewDebugCmd_Run (args : list string) (argsLenAtDash : Z) : M unit :=
  Println "hello i'm here, in cmd/ newDebugCmd" ;;
  err <- Complete args argsLenAtDash ;;
  (match err with Some e => Println (Error e) | None => ret tt end) ;;
  err <- Validate ;;
  (match err with Some e => Println (Error e) | None => ret tt end) ;;
  err <- Run ;;
  (match err with Some e => Println (Error e) | None => ret tt end).

End Methods.

(** The receiver that [NewDebugCmd] hands to the handler, before cobra
    stores the parsed flags in it. *)
Definition NewDebugCmd_opts (flags : ConfigFlags) (streams : IOStreams) : DebugOptions :=
  NewDebugOptions [DebugOptionsFlags (Some flags); DebugOptionsIOStreams streams].

(** * Vocabulary of the properties *)

(** ** The error kinds of the design document, as [Run] words them *)

Definition PodNotDebuggable (phase : PodPhase) : error :=
  Errorf ("cannot debug in a completed pod; current phase is " ++ phase).

Definition ContainerNotReady (containerName : string) : error :=
  Errorf ("container " ++ containerName ++ " id not ready").

Definition ContainerNotFound (containerName : string) : error :=
  Errorf ("cannot find specified container " ++ containerName).

(** ** Reading traces *)

(** The machine after more events. *)
Definition after (m : Machine) (evs : list Event) : Machine :=
  {| opts := opts m; termios := termios m; trace := (trace m ++ evs)%list |}.

(** A request was handed to the executor, or the agent was dialled. *)
Definition isAgentEvent (e : Event) : bool :=
  match e with
  | EvNewSPDYExecutor _ _ _ | EvStream _ _ => true
  | _ => false
  end.

(** The part of [Run] before the container name is chosen, for a pod
    that was found and has not completed. *)
Definition Run_prelude (m : Machine) (pod : Pod) : Machine :=
  after m [EvStdout ("run; function" ++ LF);
           EvPodGet (Namespace (opts m)) (PodName (opts m));
           EvDump "pod:[%+v]";
           EvStdout ("hostIP:[" ++ HostIP (Status pod) ++ "]" ++ LF ++ LF)].

Definition completed (pod : Pod) : bool :=
  String.eqb (Phase (Status pod)) PodSucceeded
  || String.eqb (Phase (Status pod)) PodFailed.

(** The statuses that make resolution of [containerName] fail, with the
    error each one raises. *)
Inductive Unresolvable (pod : Pod) (containerName : string) : error -> Prop :=
| unresolvable_not_ready cs :
    List.In cs (ContainerStatuses (Status pod)) ->
    cs_Name cs = containerName ->
    cs_Ready cs = false ->
    Unresolvable pod containerName (ContainerNotReady containerName)
| unresolvable_not_found :
    (forall cs, List.In cs (ContainerStatuses (Status pod)) -> cs_Name cs <> containerName) ->
    Unresolvable pod containerName (ContainerNotFound containerName).

(** [strings.HasPrefix] *)
Fixpoint HasPrefix (s prefix : string) {struct prefix} : bool :=
  match prefix with
  | EmptyString => true
  | String a prefix' =>
    match s with
    | EmptyString => false
    | String b s' => Ascii.eqb a b && HasPrefix s' prefix'
    end
  end.

(** The advisory notice of [Run], whatever container it names. *)
Definition isAdvisory (e : Event) : bool :=
  match e with
  | EvWrite _ text => HasPrefix text "Defaulting container name to "
  | _ => false
  end.

(** Every event a computation adds to the trace satisfies [P]. *)
Definition emits {A : Type} (P : Event -> bool) (c : M A) : Prop :=
  forall m, exists evs,
    trace (snd (c m)) = (trace m ++ evs)%list /\ forallb P evs = true.

(** A computation leaves the terminal device in the mode it found. *)
Definition keepsTermios {A : Type} (c : M A) : Prop :=
  forall m, termios (snd (c m)) = termios m.

(** The events of [Run] after the container name is chosen. *)
Definition isSessionEvent (e : Event) : bool :=
  match e with
  | EvStdout _ | EvMonitorSize _ | EvNewSPDYExecutor _ _ _ | EvStream _ _ => true
  | EvWrite _ text =>
    String.eqb text
      ("Unable to use a TTY - input is not a terminal or the right kind of file" ++ LF)
  | _ => false
  end.

(** What [Run] writes to the error stream when it picks the container. *)
Definition advisoryText (containerName : string) : string :=
  ("Defaulting container name to " ++ containerName ++ ".") ++ LF ++ CR.

(** A computation that returns, whatever the machine. *)
Definition returns {A : Type} (c : M A) : Prop :=
  forall m, exists a, fst (c m) = Val a.

(** * Sample values

    A two-container pod on one node, an operator at a terminal or behind
    a pipe, and collaborators that answer: the inputs at which the
    properties below are exercised. *)

Definition ttyIn : Stream := {| fd := 0; isatty := true |}.
Definition ttyOut : Stream := {| fd := 1; isatty := true |}.
Definition ttyErr : Stream := {| fd := 2; isatty := true |}.
Definition pipeIn : Stream := {| fd := 0; isatty := false |}.

Definition cooked : Termios :=
  {| c_echo := true; c_icanon := true; c_other := 0x1234 |}.

Definition samplePod : Pod :=
  {| Spec := {| Containers := [mkContainer "web"; mkContainer "sidecar"] |};
     Status :=
       {| Phase := PodRunning;
          HostIP := "10.0.0.7";
          ContainerStatuses :=
            [mkContainerStatus "web" true "docker://4f1d";
             mkContainerStatus "sidecar" false "docker://9a2c"] |} |}.

Definition succeededPod : Pod :=
  {| Spec := Spec samplePod;
     Status := {| Phase := PodSucceeded; HostIP := "10.0.0.7";
                  ContainerStatuses := ContainerStatuses (Status samplePod) |} |}.

Definition emptyPod : Pod :=
  {| Spec := {| Containers := [] |};
     Status := {| Phase := PodRunning; HostIP := "10.0.0.7";
                  ContainerStatuses := [] |} |}.

Definition sampleGetter : PodsGetter :=
  fun _ name =>
    if String.eqb name "web-0" then inl samplePod
    else if String.eqb name "job-0" then inl succeededPod
    else if String.eqb name "empty-0" then inl emptyPod
    else inr (Errorf ("pods " ++ name ++ " not found")).

Definition sampleFlags : ConfigFlags :=
  {| loader_Namespace := ("default", None);
     loader_ClientConfig := (Some (restConfig "https://cluster.local"), None) |}.

(** A parser for the one shape of address [Run] builds. *)
Definition sampleParse (rawurl : string) : URL + error :=
  if HasPrefix rawurl "http://" then
    inl {| Scheme := "http"; Host := skipn_string 7 rawurl; Path := "";
           RawQuery := "" |}
  else inr (Errorf "parse: missing protocol scheme").

Definition sampleEnv : Env :=
  {| user_Current := inl {| HomeDir := "/home/op" |};
     LoadFile := fun _ =>
       inr (Errorf "open /home/op/.kube/debug-config: no such file or directory");
     kubernetes_NewForConfig := fun _ => inl sampleGetter;
     dockerterm_StdStreams := (ttyIn, ttyOut, ttyErr);
     url_Parse := sampleParse;
     remotecommand_NewSPDYExecutor := fun _ _ _ => None;
     executor_Stream := fun _ _ => None;
     term_MonitorSize := fun t =>
       match tty_Out t with
       | Some out => if isatty out then Some (sizeQueueOf out) else None
       | None => None
       end |}.

(** An agent that refuses the connection. *)
Definition refusingEnv : Env :=
  {| user_Current := user_Current sampleEnv;
     LoadFile := LoadFile sampleEnv;
     kubernetes_NewForConfig := kubernetes_NewForConfig sampleEnv;
     dockerterm_StdStreams := dockerterm_StdStreams sampleEnv;
     url_Parse := url_Parse sampleEnv;
     remotecommand_NewSPDYExecutor := remotecommand_NewSPDYExecutor sampleEnv;
     executor_Stream := fun _ _ =>
       Some (Errorf "dial tcp 10.0.0.7:10027: connect: connection refused");
     term_MonitorSize := term_MonitorSize sampleEnv |}.

(** The receiver after a successful [Complete] for [kubectl debug podName]. *)
Definition completedOpts (podName containerName : string)
    (stdin : option Stream) : DebugOptions :=
  {| Namespace := "default"; PodName := podName; RetainContainer := false;
     Image := defaultImage; ContainerName := containerName;
     Command := Some ["bash"]; AgentPort := defaultAgentPort;
     ConfigLocation := ""; Flags := Some sampleFlags;
     PodClient := Some sampleGetter; Args := Some [podName];
     Config_ := Some (restConfig "https://cluster.local");
     In := stdin; Out := Some ttyOut; ErrOut := Some ttyErr |}.

Definition machineOf (o : DebugOptions) : Machine :=
  {| opts := o; termios := cooked; trace := [] |}.

Definition terminalStreams : IOStreams :=
  {| ios_In := Some ttyIn; ios_Out := Some ttyOut; ios_ErrOut := Some ttyErr |}.

#[global] Instance Stream_eq_dec : EqDecision Stream.
Proof. solve_decision. Defined.

#[global] Instance TerminalSizeQueue_eq_dec : EqDecision TerminalSizeQueue.
Proof. solve_decision. Defined.

(** The stream was opened with these options. *)
Definition streamedWith (so : StreamOptions) (e : Event) : bool :=
  match e with
  | EvStream _ so' =>
    bool_decide (so_Stdin so' = so_Stdin so)
    && bool_decide (so_Stdout so' = so_Stdout so)
    && bool_decide (so_Stderr so' = so_Stderr so)
    && Bool.eqb (so_Tty so') (so_Tty so)
    && bool_decide (so_TerminalSizeQueue so' = so_TerminalSizeQueue so)
  | _ => false
  end.

(** ** Vocabulary of [Complete] *)

Definition withLoadFile (load : string -> Config + error) (env : Env) : Env :=
  {| user_Current := user_Current env;
     LoadFile := load;
     kubernetes_NewForConfig := kubernetes_NewForConfig env;
     dockerterm_StdStreams := dockerterm_StdStreams env;
     url_Parse := url_Parse env;
     remotecommand_NewSPDYExecutor := remotecommand_NewSPDYExecutor env;
     executor_Stream := executor_Stream env;
     term_MonitorSize := term_MonitorSize env |}.

(** The file [Complete] loads: the flag, else the default location under
    the home directory when the current user is known. *)
Definition Complete_configFile (env : Env) (o : DebugOptions) : string :=
  if strlen (ConfigLocation o) <? 1 then
    match user_Current env with
    | inl usr => HomeDir usr ++ defaultConfigLocation
    | inr _ => ConfigLocation o
    end
  else ConfigLocation o.

(** The configuration [Complete] works with: what was loaded, or the
    empty one. *)
Definition Complete_config (env : Env) (o : DebugOptions) : Config :=
  match LoadFile env (Complete_configFile env o) with
  | inl c => c
  | inr _ => emptyConfig
  end.

(** Flag over config file over built-in default. *)
Definition precedence {A : Type} (flagGiven : bool) (flag : A)
    (configGiven : bool) (config : A) (builtin : A) : A :=
  if flagGiven then flag else if configGiven then config else builtin.

(** What [Complete] returns, read off the collaborators it asks: the
    arguments, the flags' loader and the client constructor. *)
Definition Complete_outcome (env : Env) (args : list string) (o : DebugOptions)
  : Res (option error) :=
  match args with
  | [] => Val (Some (Errorf "error pod not specified"))
  | _ :: _ =>
    match Flags o with
    | None => Panic nilDereference
    | Some configLoader =>
      match snd (loader_Namespace configLoader) with
      | Some e => Val (Some e)
      | None =>
        match snd (loader_ClientConfig configLoader) with
        | Some e => Val (Some e)
        | None =>
          match kubernetes_NewForConfig env (fst (loader_ClientConfig configLoader)) with
          | inr e => Val (Some e)
          | inl _ => Val None
          end
        end
      end
    end
  end.

(** ** Vocabulary of the debug request *)

(** A request was handed to the executor. *)
Definition isRequest (e : Event) : bool :=
  match e with
  | EvNewSPDYExecutor _ _ _ => true
  | _ => false
  end.

(** The fields of the receiver that the request is built from. *)
Definition sameRequestFields (o o' : DebugOptions) : Prop :=
  Image o' = Image o /\ Command o' = Command o
  /\ AgentPort o' = AgentPort o /\ Config_ o' = Config_ o.

(** A computation leaves those fields as they are. *)
Definition keepsRequestFields {A : Type} (c : M A) : Prop :=
  forall m, sameRequestFields (opts m) (opts (snd (c m))).

(** The address [Run] parses. *)
Definition agentAddress (hostIP : string) (agentPort : Z) : string :=
  "http://" ++ hostIP ++ ":" ++ fmt_d agentPort.

(** ** Vocabulary of the JSON round trip *)

(** A well-formed multi-byte UTF-8 sequence, with the rune and the size
    [utf8.DecodeRune] reads from it. *)
Inductive Decoded : string -> Z -> nat -> Prop :=
| Decoded2 a0 a1 lo hi :
    utf8.first (code a0) = Some (2%nat, lo, hi) ->
    lo <= code a1 <= hi ->
    Decoded (String a0 (String a1 EmptyString))
      (Z.lor (Z.shiftl (Z.land (code a0) utf8.mask2) 6)
             (Z.land (code a1) utf8.maskx)) 2
| Decoded3 a0 a1 a2 lo hi :
    utf8.first (code a0) = Some (3%nat, lo, hi) ->
    lo <= code a1 <= hi ->
    utf8.locb <= code a2 <= utf8.hicb ->
    Decoded (String a0 (String a1 (String a2 EmptyString)))
      (Z.lor (Z.lor (Z.shiftl (Z.land (code a0) utf8.mask3) 12)
                    (Z.shiftl (Z.land (code a1) utf8.maskx) 6))
             (Z.land (code a2) utf8.maskx)) 3
| Decoded4 a0 a1 a2 a3 lo hi :
    utf8.first (code a0) = Some (4%nat, lo, hi) ->
    lo <= code a1 <= hi ->
    utf8.locb <= code a2 <= utf8.hicb ->
    utf8.locb <= code a3 <= utf8.hicb ->
    Decoded (String a0 (String a1 (String a2 (String a3 EmptyString))))
      (Z.lor (Z.lor (Z.lor (Z.shiftl (Z.land (code a0) utf8.mask4) 18)
                           (Z.shiftl (Z.land (code a1) utf8.maskx) 12))
                    (Z.shiftl (Z.land (code a2) utf8.maskx) 6))
             (Z.land (code a3) utf8.maskx)) 4.
(** * Properties *)

(** ** Strings *)

Lemma app_String a s t : String a s ++ t = String a (s ++ t).
Proof. reflexivity. Qed.

Lemma app_empty t : "" ++ t = t.
Proof. reflexivity. Qed.

Lemma string_app_assoc (s t u : string) : (s ++ t) ++ u = s ++ t ++ u.
Proof. induction s as [|a s IH]; [reflexivity|]. by rewrite !app_String, IH. Qed.

Lemma strlen_String a s : (0 <? strlen (String a s)) = true.
Proof. apply Z.ltb_lt. unfold strlen. simpl String.length. lia. Qed.

(** ** The state monad *)

Lemma after_nil m : after m [] = m.
Proof. destruct m; unfold after; simpl. by rewrite app_nil_r. Qed.

Lemma after_after m evs evs' : after (after m evs) evs' = after m (evs ++ evs')%list.
Proof. unfold after; simpl. by rewrite app_assoc. Qed.

Lemma emit_after e m : emit e m = (Val tt, after m [e]).
Proof. reflexivity. Qed.

Lemma bind_val {A B} (c : M A) (k : A -> M B) m a m' :
  c m = (Val a, m') -> bind c k m = k a m'.
Proof. unfold bind. by intros ->. Qed.

Lemma bind_panic {A B} (c : M A) (k : A -> M B) m msg m' :
  c m = (Panic msg, m') -> bind c k m = (Panic msg, m').
Proof. unfold bind. by intros ->. Qed.

Lemma bind_getOpts {B} (k : DebugOptions -> M B) m :
  bind getOpts k m = k (opts m) m.
Proof. reflexivity. Qed.

Lemma bind_modifyOpts {B} f (k : unit -> M B) m :
  bind (modifyOpts f) k m
  = k tt {| opts := f (opts m); termios := termios m; trace := trace m |}.
Proof. reflexivity. Qed.

Lemma bind_emit {B} e (k : unit -> M B) m :
  bind (emit e) k m = k tt (after m [e]).
Proof. reflexivity. Qed.

Lemma bind_ret {A B} (a : A) (k : A -> M B) m : bind (ret a) k m = k a m.
Proof. reflexivity. Qed.

Lemma bind_raise {A B} msg (k : A -> M B) m :
  bind (panic msg) k m = (Panic msg, m).
Proof. reflexivity. Qed.

Lemma bind_assoc {A B C} (c : M A) (k1 : A -> M B) (k2 : B -> M C) m :
  bind (bind c k1) k2 m = bind c (fun a => bind (k1 a) k2) m.
Proof. unfold bind. by destruct (c m) as [[a|msg] m1]. Qed.

Ltac step :=
  first
    [ progress cbv beta zeta
    | progress cbn [opts termios trace after]
    | rewrite bind_assoc
    | rewrite bind_getOpts | rewrite bind_modifyOpts | rewrite bind_emit
    | rewrite bind_ret | rewrite bind_raise
    | match goal with
      | |- context [bind (match ?x with _ => _ end) _ _] => destruct x eqn:?
      | |- context [(match ?x with _ => _ end) ?m] =>
        match type of m with Machine => destruct x eqn:? end
      end ].

(** *** The trace of a computation *)

Lemma emits_ret {A} P (a : A) : emits P (ret a).
Proof. intros m. exists []. simpl. by rewrite app_nil_r. Qed.

Lemma emits_panic {A} P msg : emits P (@panic A msg).
Proof. intros m. exists []. simpl. by rewrite app_nil_r. Qed.

Lemma emits_getOpts P : emits P getOpts.
Proof. intros m. exists []. simpl. by rewrite app_nil_r. Qed.

Lemma emits_modifyOpts P f : emits P (modifyOpts f).
Proof. intros m. exists []. simpl. by rewrite app_nil_r. Qed.

Lemma emits_emit (P : Event -> bool) e : P e = true -> emits P (emit e).
Proof. intros He m. exists [e]. simpl. by rewrite He. Qed.

Lemma emits_bind {A B} P (c : M A) (k : A -> M B) :
  emits P c -> (forall a, emits P (k a)) -> emits P (bind c k).
Proof.
  intros Hc Hk m. unfold bind. destruct (Hc m) as (evs & Ht & HP).
  destruct (c m) as [[a|msg] m1]; simpl in *.
  - destruct (Hk a m1) as (evs' & Ht' & HP').
    exists (evs ++ evs')%list. rewrite Ht', Ht, app_assoc. split; [done|].
    rewrite forallb_app. by rewrite HP, HP'.
  - by exists evs.
Qed.

Lemma emits_deref {A} P (p : option A) : emits P (deref p).
Proof. destruct p; [apply emits_ret | apply emits_panic]. Qed.

Lemma emits_index0 {A} P (s : list A) : emits P (index0 s).
Proof. destruct s; [apply emits_panic | apply emits_ret]. Qed.

Lemma emits_Safe P t fn : emits P fn -> emits P (Safe t fn).
Proof.
  intros Hfn m. unfold Safe. destruct (IsTerminalIn t); [|apply Hfn].
  set (m1 := if tty_Raw t then _ else m).
  destruct (Hfn m1) as (evs & Ht & HP).
  destruct (fn m1) as [r m2]. exists evs. simpl in *.
  rewrite Ht. split; [|done]. subst m1. by destruct (tty_Raw t).
Qed.

Lemma emits_weaken {A} (P Q : Event -> bool) (c : M A) :
  (forall e, P e = true -> Q e = true) -> emits P c -> emits Q c.
Proof.
  intros HPQ Hc m. destruct (Hc m) as (evs & Ht & HP). exists evs. split; [done|].
  apply forallb_forall. intros e He. apply HPQ.
  eapply forallb_forall in HP; eauto.
Qed.

Ltac emits_go :=
  repeat first
    [ apply emits_ret | apply emits_panic | apply emits_getOpts
    | apply emits_modifyOpts | apply emits_deref | apply emits_index0
    | apply emits_emit; reflexivity
    | apply emits_Safe
    | apply emits_bind; [|intros ?]
    | progress cbv zeta
    | match goal with
      | |- emits _ (match ?x with _ => _ end) => destruct x
      end ].

Lemma emits_Println (P : Event -> bool) s :
  P (EvStdout (s ++ LF)) = true -> emits P (Println s).
Proof. intros H. by apply emits_emit. Qed.

(** *** Computations that cannot panic *)

Lemma returns_ret {A} (a : A) : returns (ret a).
Proof. intros m. by exists a. Qed.

Lemma returns_getOpts : returns getOpts.
Proof. intros m. by eexists. Qed.

Lemma returns_modifyOpts f : returns (modifyOpts f).
Proof. intros m. by eexists. Qed.

Lemma returns_emit e : returns (emit e).
Proof. intros m. by eexists. Qed.

Lemma returns_bind {A B} (c : M A) (k : A -> M B) :
  returns c -> (forall a, returns (k a)) -> returns (bind c k).
Proof.
  intros Hc Hk m. unfold bind. destruct (Hc m) as (a & Ha).
  destruct (c m) as [r m1]. simpl in Ha. subst r. apply Hk.
Qed.

Lemma returns_Safe t fn : returns fn -> returns (Safe t fn).
Proof.
  intros Hfn m. unfold Safe. destruct (IsTerminalIn t); [|apply Hfn].
  set (m1 := if tty_Raw t then _ else m).
  destruct (Hfn m1) as (a & Ha). destruct (fn m1) as [r m2].
  by exists a.
Qed.

Ltac returns_go :=
  repeat first
    [ apply returns_ret | apply returns_getOpts | apply returns_modifyOpts
    | apply returns_emit | apply returns_Safe
    | apply returns_bind; [|intros ?]
    | progress cbv zeta
    | match goal with
      | |- returns (match ?x with _ => _ end) => destruct x eqn:?
      end ].

(** *** The mode of the terminal *)

Lemma keepsTermios_ret {A} (a : A) : keepsTermios (ret a).
Proof. by intros m. Qed.

Lemma keepsTermios_panic {A} msg : keepsTermios (@panic A msg).
Proof. by intros m. Qed.

Lemma keepsTermios_getOpts : keepsTermios getOpts.
Proof. by intros m. Qed.

Lemma keepsTermios_modifyOpts f : keepsTermios (modifyOpts f).
Proof. by intros m. Qed.

Lemma keepsTermios_emit e : keepsTermios (emit e).
Proof. by intros m. Qed.

Lemma keepsTermios_bind {A B} (c : M A) (k : A -> M B) :
  keepsTermios c -> (forall a, keepsTermios (k a)) -> keepsTermios (bind c k).
Proof.
  intros Hc Hk m. unfold bind. specialize (Hc m).
  destruct (c m) as [[a|msg] m1]; simpl in *; [|done].
  by rewrite Hk.
Qed.

Lemma keepsTermios_deref {A} (p : option A) : keepsTermios (deref p).
Proof. destruct p; [apply keepsTermios_ret | apply keepsTermios_panic]. Qed.

Lemma keepsTermios_index0 {A} (s : list A) : keepsTermios (index0 s).
Proof. destruct s; [apply keepsTermios_panic | apply keepsTermios_ret]. Qed.

(** Whatever the body does to the device and however it ends, [Safe]
    on an interactive terminal hands the device back as it found it. *)
Lemma Safe_restores t fn m :
  IsTerminalIn t = true -> termios (snd (Safe t fn m)) = termios m.
Proof.
  intros Ht. unfold Safe. rewrite Ht.
  destruct (fn _) as [r m2]. reflexivity.
Qed.

Lemma Safe_raw_then_restored t fn m :
  IsTerminalIn t = true -> tty_Raw t = true ->
  Safe t fn m
  = (fst (fn (withTermios (MakeRaw (termios m)) m)),
     withTermios (termios m) (snd (fn (withTermios (MakeRaw (termios m)) m)))).
Proof.
  intros Ht Hraw. unfold Safe. rewrite Ht, Hraw.
  by destruct (fn _) as [r m2].
Qed.

Lemma keepsTermios_Safe t fn : keepsTermios fn -> keepsTermios (Safe t fn).
Proof.
  intros Hfn m. destruct (IsTerminalIn t) eqn:Ht.
  - by apply Safe_restores.
  - unfold Safe. rewrite Ht. apply Hfn.
Qed.

Ltac keepsTermios_go :=
  repeat first
    [ apply keepsTermios_ret | apply keepsTermios_panic
    | apply keepsTermios_getOpts | apply keepsTermios_modifyOpts
    | apply keepsTermios_emit | apply keepsTermios_deref
    | apply keepsTermios_index0 | apply keepsTermios_Safe
    | apply keepsTermios_bind; [|intros ?]
    | progress cbv zeta
    | match goal with
      | |- keepsTermios (match ?x with _ => _ end) => destruct x
      end ].

Section RunFacts.

Variable env : Env.

Lemma Run_found m podClient pod :
  PodClient (opts m) = Some podClient ->
  podClient (Namespace (opts m)) (PodName (opts m)) = inl pod ->
  completed pod = false ->
  Run env m =
  bind (Run_containerName pod)
       (fun containerName => Run_session env pod (HostIP (Status pod)) containerName)
       (Run_prelude m pod).
Proof.
  intros Hpc Hget Hph. unfold Run, Println.
  unfold bind at 1. rewrite emit_after.
  unfold bind at 1. unfold getOpts at 1. simpl opts.
  unfold bind at 1. rewrite Hpc. unfold deref, ret.
  unfold bind at 1. rewrite emit_after, after_after. simpl app.
  rewrite Hget. unfold completed in Hph. rewrite Hph.
  unfold bind at 1. rewrite emit_after, after_after.
  unfold bind at 1. rewrite emit_after, after_after.
  reflexivity.
Qed.

(** C3: for a pod whose phase is Succeeded or Failed, [Run] returns the
    PodNotDebuggable error right after the lookup: the receiver and the
    terminal are as before, the trace has grown by the first diagnostic
    and the lookup only, so no container was resolved, no request was
    built and the agent was not contacted. *)
Theorem C3_completed_pod_rejected m podClient pod :
  PodClient (opts m) = Some podClient ->
  podClient (Namespace (opts m)) (PodName (opts m)) = inl pod ->
  Phase (Status pod) = PodSucceeded \/ Phase (Status pod) = PodFailed ->
  let evs := [EvStdout ("run; function" ++ LF);
              EvPodGet (Namespace (opts m)) (PodName (opts m))] in
  Run env m = (Val (Some (PodNotDebuggable (Phase (Status pod)))), after m evs)
  /\ Error (PodNotDebuggable (Phase (Status pod)))
     = "cannot debug in a completed pod; current phase is " ++ Phase (Status pod)
  /\ forallb (fun e => negb (isAgentEvent e)) evs = true.
Proof.
  intros Hpc Hget Hph evs. split; [|split; reflexivity].
  unfold Run, Println.
  unfold bind at 1. rewrite emit_after.
  unfold bind at 1. unfold getOpts at 1. simpl opts.
  unfold bind at 1. rewrite Hpc. unfold deref, ret.
  unfold bind at 1. rewrite emit_after, after_after. simpl app.
  rewrite Hget.
  assert (String.eqb (Phase (Status pod)) PodSucceeded
          || String.eqb (Phase (Status pod)) PodFailed = true) as ->.
  { destruct Hph as [-> | ->]; reflexivity. }
  reflexivity.
Qed.

(** *** Resolution of the container *)

Lemma getContainerIdByName_range_not_found statuses containerName :
  (forall cs, List.In cs statuses -> cs_Name cs <> containerName) ->
  getContainerIdByName_range statuses containerName
  = ("", Some (ContainerNotFound containerName)).
Proof.
  induction statuses as [|cs statuses IH]; intros Habsent; [reflexivity|].
  simpl. destruct (String.eqb_spec (cs_Name cs) containerName) as [Heq|Hne].
  - exfalso. apply (Habsent cs); [by left | exact Heq].
  - simpl. apply IH. intros cs' Hin. apply Habsent. by right.
Qed.

Lemma getContainerIdByName_range_not_ready statuses containerName cs :
  List.NoDup (map cs_Name statuses) ->
  List.In cs statuses -> cs_Name cs = containerName -> cs_Ready cs = false ->
  getContainerIdByName_range statuses containerName
  = ("", Some (ContainerNotReady containerName)).
Proof.
  induction statuses as [|cs0 statuses IH]; intros Hnd Hin Hname Hready;
    [destruct Hin|].
  simpl in Hnd. apply List.NoDup_cons_iff in Hnd as [Hfresh Hnd].
  simpl. destruct (String.eqb_spec (cs_Name cs0) containerName) as [Heq|Hne]; simpl.
  - destruct Hin as [-> | Hin].
    + by rewrite Hready.
    + exfalso. apply Hfresh. rewrite Heq, <- Hname. by apply in_map.
  - destruct Hin as [-> | Hin]; [congruence|]. by apply IH.
Qed.

Lemma getContainerIdByName_unresolvable pod containerName e :
  List.NoDup (map cs_Name (ContainerStatuses (Status pod))) ->
  Unresolvable pod containerName e ->
  getContainerIdByName pod containerName = ("", Some e).
Proof.
  intros Hnd [cs Hin Hname Hready | Habsent]; unfold getContainerIdByName.
  - by apply getContainerIdByName_range_not_ready with cs.
  - by apply getContainerIdByName_range_not_found.
Qed.

Lemma Run_session_unresolved pod hostIP containerName id e m :
  getContainerIdByName pod containerName = (id, Some e) ->
  Run_session env pod hostIP containerName m = (Val (Some e), m).
Proof. intros H. unfold Run_session. by rewrite H. Qed.

Lemma emits_remoteExecute method u config stdin stdout stderr tty q :
  emits isSessionEvent (remoteExecute env method u config stdin stdout stderr tty q).
Proof. unfold remoteExecute. emits_go. Qed.

Lemma emits_Run_fn hostIP containerId t q :
  emits isSessionEvent (Run_fn env hostIP containerId t q).
Proof. unfold Run_fn, json.Marshal. emits_go. Qed.

Lemma emits_setupTTY : emits isSessionEvent (setupTTY env).
Proof. unfold setupTTY, Fprint. emits_go. Qed.

Lemma emits_Run_session pod hostIP containerName :
  emits isSessionEvent (Run_session env pod hostIP containerName).
Proof.
  unfold Run_session, MonitorSize. emits_go.
Qed.

Lemma isSessionEvent_not_advisory e :
  isSessionEvent e = true -> isAdvisory e = false.
Proof.
  destruct e; simpl; try done.
  intros H. apply String.eqb_eq in H. by subst.
Qed.

Lemma emits_Run_containerName pod :
  emits (fun e => negb (isAgentEvent e)) (Run_containerName pod).
Proof. unfold Run_containerName, Fprint. emits_go. Qed.

(** C4: a container whose status says not ready makes resolution fail
    with ContainerNotReady, a name with no status makes it fail with
    ContainerNotFound (names are unique within the pod), and [Run] then
    returns that error: nothing is handed to the executor and the agent
    is not dialled. *)
Theorem C4_unresolvable_container_rejected m podClient pod containerName e m1 :
  List.NoDup (map cs_Name (ContainerStatuses (Status pod))) ->
  Unresolvable pod containerName e ->
  PodClient (opts m) = Some podClient ->
  podClient (Namespace (opts m)) (PodName (opts m)) = inl pod ->
  completed pod = false ->
  Run_containerName pod (Run_prelude m pod) = (Val containerName, m1) ->
  getContainerIdByName pod containerName = ("", Some e)
  /\ Run env m = (Val (Some e), m1)
  /\ exists evs, trace m1 = (trace m ++ evs)%list
                 /\ forallb (fun ev => negb (isAgentEvent ev)) evs = true.
Proof.
  intros Hnd Hun Hpc Hget Hph Hname.
  pose proof (getContainerIdByName_unresolvable _ _ _ Hnd Hun) as Hid.
  split; [exact Hid|]. split.
  - rewrite (Run_found m podClient pod Hpc Hget Hph).
    rewrite (bind_val _ _ _ _ _ Hname).
    by apply Run_session_unresolved with "".
  - destruct (emits_Run_containerName pod (Run_prelude m pod)) as (evs & Ht & HP).
    rewrite Hname in Ht. simpl in Ht.
    eexists. rewrite Ht, <- app_assoc. split; [reflexivity|].
    simpl. exact HP.
Qed.

(** *** The default container *)

Lemma Run_containerName_default m pod c rest w :
  ContainerName (opts m) = "" ->
  Containers (Spec pod) = c :: rest ->
  ErrOut (opts m) = Some w ->
  Run_containerName pod m
  = (Val (c_Name c),
     after m match rest with
             | [] => []
             | _ :: _ =>
               [EvWrite w (advisoryText (c_Name c))]
             end).
Proof.
  intros Hname Hcs Hw. unfold Run_containerName.
  unfold bind at 1. unfold getOpts at 1. rewrite Hname, Hcs. simpl strlen.
  change (strlen "" =? 0) with true. cbv iota.
  destruct rest as [|c' rest].
  - simpl. by rewrite after_nil.
  - assert ((1 <? Z.of_nat (length (c :: c' :: rest))) = true) as ->.
    { apply Z.ltb_lt. simpl length. lia. }
    rewrite Hw. reflexivity.
Qed.

Lemma filter_isAdvisory_session evs :
  forallb isSessionEvent evs = true -> List.filter isAdvisory evs = [].
Proof.
  induction evs as [|e evs IH]; simpl; [done|].
  intros [He Hevs]%andb_true_iff.
  rewrite (isSessionEvent_not_advisory e He). by apply IH.
Qed.

(** C5: with no container name requested, the name resolved is that of
    the first declared container; the advisory naming it is written to
    the error stream when the pod declares more than one container and
    not otherwise, and in the whole of [Run] that is the only advisory;
    the advisory is no error: [Run] goes on to resolve the name. *)
Theorem C5_first_container_by_default m podClient pod c rest w :
  PodClient (opts m) = Some podClient ->
  podClient (Namespace (opts m)) (PodName (opts m)) = inl pod ->
  completed pod = false ->
  ContainerName (opts m) = "" ->
  Containers (Spec pod) = c :: rest ->
  ErrOut (opts m) = Some w ->
  let notices :=
    match rest with
    | [] => []
    | _ :: _ =>
      [EvWrite w (advisoryText (c_Name c))]
    end in
  Run_containerName pod (Run_prelude m pod)
  = (Val (c_Name c), after (Run_prelude m pod) notices)
  /\ Run env m
     = Run_session env pod (HostIP (Status pod)) (c_Name c)
         (after (Run_prelude m pod) notices)
  /\ exists evs,
       trace (snd (Run env m)) = (trace m ++ evs)%list
       /\ length (List.filter isAdvisory evs)
          = if 1 <? Z.of_nat (length (Containers (Spec pod))) then 1%nat else 0%nat.
Proof.
  intros Hpc Hget Hph Hname Hcs Hw notices.
  assert (Run_containerName pod (Run_prelude m pod)
          = (Val (c_Name c), after (Run_prelude m pod) notices)) as Hpick.
  { by apply Run_containerName_default. }
  assert (Run env m
          = Run_session env pod (HostIP (Status pod)) (c_Name c)
              (after (Run_prelude m pod) notices)) as Hrun.
  { rewrite (Run_found m podClient pod Hpc Hget Hph).
    by rewrite (bind_val _ _ _ _ _ Hpick). }
  split; [exact Hpick|]. split; [exact Hrun|].
  destruct (emits_Run_session pod (HostIP (Status pod)) (c_Name c)
              (after (Run_prelude m pod) notices)) as (evs & Ht & HP).
  rewrite Hrun, Ht. simpl trace. rewrite <- !app_assoc.
  eexists. split; [reflexivity|].
  rewrite !List.filter_app, (filter_isAdvisory_session evs HP), app_nil_r.
  rewrite Hcs. subst notices. destruct rest as [|c' rest].
  - reflexivity.
  - assert ((1 <? Z.of_nat (length (c :: c' :: rest))) = true) as ->.
    { apply Z.ltb_lt. simpl length. lia. }
    simpl. reflexivity.
Qed.

Lemma returns_Run_session pod hostIP containerName :
  returns (Run_session env pod hostIP containerName).
Proof.
  unfold Run_session, MonitorSize, setupTTY, Run_fn, remoteExecute, json.Marshal.
  returns_go.
  all: unfold Fprint, deref; returns_go.
Qed.

Lemma Run_containerName_nonempty m pod c rest :
  ContainerName (opts m) = "" ->
  Containers (Spec pod) = c :: rest ->
  fst (Run_containerName pod m) = Val (c_Name c)
  \/ fst (Run_containerName pod m) = Panic nilDereference.
Proof.
  intros Hname Hcs. unfold Run_containerName.
  rewrite !bind_getOpts, Hname, Hcs.
  change (strlen "" =? 0) with true. cbv iota.
  destruct (1 <? Z.of_nat (length (c :: rest))); [destruct (ErrOut (opts m))|];
    [left | right | left]; reflexivity.
Qed.

(** C9: with no container name requested, [Run] indexes the declared
    containers at 0 without a guard: the step panics with an index out
    of range exactly when the pod declares no container, and [Run] then
    panics right after its diagnostics. *)
Theorem C9_first_container_needs_one m podClient pod :
  PodClient (opts m) = Some podClient ->
  podClient (Namespace (opts m)) (PodName (opts m)) = inl pod ->
  completed pod = false ->
  ContainerName (opts m) = "" ->
  (fst (Run_containerName pod (Run_prelude m pod)) = Panic indexOutOfRange
   <-> Containers (Spec pod) = [])
  /\ (Containers (Spec pod) = [] ->
      Run env m = (Panic indexOutOfRange, Run_prelude m pod))
  /\ (Containers (Spec pod) <> [] -> fst (Run env m) <> Panic indexOutOfRange).
Proof.
  intros Hpc Hget Hph Hname.
  assert (Containers (Spec pod) = [] ->
          Run_containerName pod (Run_prelude m pod)
          = (Panic indexOutOfRange, Run_prelude m pod)) as Hempty.
  { intros Hcs. unfold Run_containerName.
    unfold bind at 1. unfold getOpts at 1.
    change (opts (Run_prelude m pod)) with (opts m). rewrite Hname, Hcs.
    reflexivity. }
  assert (Containers (Spec pod) <> [] ->
          fst (Run_containerName pod (Run_prelude m pod)) <> Panic indexOutOfRange
          /\ forall msg, fst (Run_containerName pod (Run_prelude m pod)) = Panic msg ->
                         msg = nilDereference) as Hsome.
  { intros Hcs. destruct (Containers (Spec pod)) as [|c rest] eqn:E; [done|].
    destruct (Run_containerName_nonempty (Run_prelude m pod) pod c rest Hname E)
      as [-> | ->]; (split; [discriminate | intros msg H; inversion H; reflexivity]). }
  split; [split|split].
  - intros Hp. destruct (Containers (Spec pod)) eqn:E; [done|].
    exfalso. apply Hsome; [done | exact Hp].
  - intros Hcs. by rewrite (Hempty Hcs).
  - intros Hcs. rewrite (Run_found m podClient pod Hpc Hget Hph).
    by rewrite (bind_panic _ _ _ _ _ (Hempty Hcs)).
  - intros Hcs Hp. rewrite (Run_found m podClient pod Hpc Hget Hph) in Hp.
    destruct (Hsome Hcs) as [Hne Hnil].
    unfold bind in Hp at 1.
    destruct (Run_containerName pod (Run_prelude m pod)) as [[n|msg] m1] eqn:E.
    + destruct (returns_Run_session pod (HostIP (Status pod)) n m1) as (r & Hr).
      rewrite Hr in Hp. discriminate.
    + simpl in Hp, Hnil. specialize (Hnil msg eq_refl). subst msg. discriminate.
Qed.

(** *** The mode of the terminal after [Run] *)

Lemma keepsTermios_Run_fn hostIP containerId t q :
  keepsTermios (Run_fn env hostIP containerId t q).
Proof. unfold Run_fn, remoteExecute, json.Marshal. keepsTermios_go. Qed.

Lemma keepsTermios_Run : keepsTermios (Run env).
Proof.
  unfold Run, Run_containerName, Run_session, setupTTY, MonitorSize, Println, Fprint.
  keepsTermios_go. all: apply keepsTermios_Run_fn.
Qed.

(** C1: whatever the pod lookup, the resolution, the executor and the
    stream answer, the terminal device is in the same mode after [Run]
    as before, every setting of it included; the part that changes the
    mode is [Safe], which on an interactive terminal switches the device
    to raw mode for the body and puts the saved mode back on every way
    out of the body, whatever the body did and returned. *)
Theorem C1_terminal_mode_restored :
  (forall m, termios (snd (Run env m)) = termios m)
  /\ (forall t fn m,
        IsTerminalIn t = true -> termios (snd (Safe t fn m)) = termios m)
  /\ (forall t fn m,
        IsTerminalIn t = true -> tty_Raw t = true ->
        let body := fn (withTermios (MakeRaw (termios m)) m) in
        Safe t fn m = (fst body, withTermios (termios m) (snd body))).
Proof.
  split; [exact keepsTermios_Run|]. split.
  - intros t fn m. apply Safe_restores.
  - intros t fn m. apply Safe_raw_then_restored.
Qed.

(** [setupTTY] sets [Raw] before it looks at the input, and no path
    clears it. *)
Lemma setupTTY_Raw m t m' : setupTTY env m = (Val t, m') -> tty_Raw t = true.
Proof.
  unfold setupTTY, Fprint, bind, getOpts, modifyOpts, deref, ret, emit. simpl.
  destruct (negb _).
  - destruct (ErrOut (opts m)); simpl; intros H; inversion H; reflexivity.
  - destruct (dockerterm_StdStreams env) as [[stdin stdout] stderr]. simpl.
    destruct (Out (opts m)); simpl; intros H; inversion H; reflexivity.
Qed.


End RunFacts.

(** ** Complete *)

Lemma Complete_outcome_spec env args d m :
  fst (Complete env args d m) = Complete_outcome env args (opts m).
Proof.
  destruct args as [|arg0 args1]; [reflexivity|].
  unfold Complete, Complete_outcome, Println, deref.
  repeat step.
  all: cbn [fst snd set_Args Flags] in *.
  all: repeat match goal with
              | H : Flags _ = _ |- _ => rewrite H; clear H
              | H : loader_Namespace _ = _ |- _ => rewrite H; clear H
              | H : loader_ClientConfig _ = _ |- _ => rewrite H; clear H
              end.
  all: cbn [fst snd].
  all: repeat match goal with
              | H : kubernetes_NewForConfig _ _ = _ |- _ => rewrite H; clear H
              end.
  all: reflexivity.
Qed.

Lemma Complete_success env args d m m' :
  Complete env args d m = (Val None, m') ->
  exists arg0 args1,
    args = arg0 :: args1
    /\ let config := Complete_config env (opts m) in
       Command (opts m')
       = precedence (0 <? len (Some args1)) (Some args1)
           (0 <? len (cfg_Command config)) (cfg_Command config) (Some ["bash"])
       /\ Image (opts m')
          = precedence (0 <? strlen (Image (opts m))) (Image (opts m))
              (0 <? strlen (cfg_Image config)) (cfg_Image config) defaultImage
       /\ AgentPort (opts m')
          = precedence (0 <? AgentPort (opts m)) (AgentPort (opts m))
              (0 <? cfg_AgentPort config) (cfg_AgentPort config) defaultAgentPort.
Proof.
  destruct args as [|arg0 args1]; [discriminate|].
  intros H. exists arg0, args1. split; [reflexivity|].
  revert H. unfold Complete, Println, deref.
  repeat step.
  all: unfold ret; intros H; try discriminate H.
  all: inversion H; clear H; cbn [opts].
  all: unfold precedence, Complete_config, Complete_configFile; simpl in *.
  all: repeat match goal with
              | H : LoadFile _ _ = _ |- _ => rewrite H; clear H
              end.
  all: simpl.
  all: repeat match goal with
              | H : (_ <? _) = true |- _ => apply Z.ltb_lt in H
              | H : (_ <? _) = false |- _ => apply Z.ltb_ge in H
              end.
  all: try (exfalso; unfold strlen in *; simpl in *; lia).
  all: repeat match goal with
              | |- context [?a <? ?b] => destruct (Z.ltb_spec a b); try lia
              end.
  all: repeat split; reflexivity.
Qed.

Lemma precedence_positive {A} (size : A -> Z) flag config builtin :
  0 < size builtin ->
  0 < size (precedence (0 <? size flag) flag (0 <? size config) config builtin).
Proof.
  intros Hb. unfold precedence.
  destruct (Z.ltb_spec 0 (size flag)); [done|].
  destruct (Z.ltb_spec 0 (size config)); done.
Qed.

(** C10: what [Complete] returns does not depend on what loading the
    config file gives, so a missing or unreadable file never makes it
    fail; a load error leaves the empty configuration in place of the
    file's; and when [Complete] succeeds, command, image and agent port
    are each the flag's value if one was given, else the config file's if
    it has one, else the built-in default, so the command is not empty,
    the image is not empty and the port is positive. *)
Theorem C10_complete_defaults env args d m :
  (forall load,
     fst (Complete (withLoadFile load env) args d m) = fst (Complete env args d m))
  /\ (forall e,
        LoadFile env (Complete_configFile env (opts m)) = inr e ->
        Complete_config env (opts m) = emptyConfig)
  /\ (forall arg0 args1 fl ns cfg clientset,
        args = arg0 :: args1 ->
        Flags (opts m) = Some fl ->
        loader_Namespace fl = (ns, None) ->
        loader_ClientConfig fl = (cfg, None) ->
        kubernetes_NewForConfig env cfg = inl clientset ->
        fst (Complete env args d m) = Val None)
  /\ (forall m',
        Complete env args d m = (Val None, m') ->
        exists arg0 args1,
          args = arg0 :: args1
          /\ let config := Complete_config env (opts m) in
             Command (opts m')
             = precedence (0 <? len (Some args1)) (Some args1)
                 (0 <? len (cfg_Command config)) (cfg_Command config)
                 (Some ["bash"])
             /\ Image (opts m')
                = precedence (0 <? strlen (Image (opts m))) (Image (opts m))
                    (0 <? strlen (cfg_Image config)) (cfg_Image config)
                    defaultImage
             /\ AgentPort (opts m')
                = precedence (0 <? AgentPort (opts m)) (AgentPort (opts m))
                    (0 <? cfg_AgentPort config) (cfg_AgentPort config)
                    defaultAgentPort
             /\ 0 < len (Command (opts m'))
             /\ 0 < strlen (Image (opts m'))
             /\ 0 < AgentPort (opts m')).
Proof.
  split; [|split; [|split]].
  - intros load. rewrite !Complete_outcome_spec. reflexivity.
  - intros e He. unfold Complete_config. by rewrite He.
  - intros arg0 args1 fl ns cfg clientset -> Hfl Hns Hcfg Hnew.
    rewrite Complete_outcome_spec. unfold Complete_outcome.
    rewrite Hfl, Hns, Hcfg. cbn [fst snd]. by rewrite Hnew.
  - intros m' Hm'.
    destruct (Complete_success env args d m m' Hm')
      as (arg0 & args1 & -> & Hcmd & Himg & Hport).
    exists arg0, args1. split; [reflexivity|]. cbv zeta.
    split; [exact Hcmd|]. split; [exact Himg|]. split; [exact Hport|].
    rewrite Hcmd, Himg, Hport.
    split; [|split].
    + apply (precedence_positive len). reflexivity.
    + apply (precedence_positive strlen). reflexivity.
    + apply (precedence_positive (fun z : Z => z)). reflexivity.
Qed.

(** ** The debug request *)

Lemma request_params image containerId command :
  url.Add "command" command
    (url.Add "container" containerId (url.Add "image" image ∅))
  = <["command" := [command]]>
      (<["container" := [containerId]]> (<["image" := [image]]> ∅)).
Proof.
  unfold url.Add.
  rewrite !lookup_insert_ne by done. rewrite !lookup_empty. reflexivity.
Qed.

Lemma Encode_request image containerId command :
  url.Encode
    (url.Add "command" command
       (url.Add "container" containerId (url.Add "image" image ∅)))
  = "command=" ++ url.QueryEscape command
    ++ "&container=" ++ url.QueryEscape containerId
    ++ "&image=" ++ url.QueryEscape image.
Proof.
  rewrite request_params. unfold url.Encode.
  assert (url.sortedKeys
            (<["command" := [command]]>
               (<["container" := [containerId]]> (<["image" := [image]]> ∅)))
          = ["command"; "container"; "image"]) as ->
    by (vm_compute; reflexivity).
  cbn [fold_left].
  repeat (rewrite lookup_insert_eq || rewrite lookup_insert_ne by done).
  unfold default, from_option, id. cbn [fold_left].
  change (url.QueryEscape "command") with "command".
  change (url.QueryEscape "container") with "container".
  change (url.QueryEscape "image") with "image".
  change (0 <? strlen "") with false. cbv iota.
  repeat (progress (rewrite ?app_String, ?app_empty, ?strlen_String)).
  rewrite !string_app_assoc.
  repeat (progress (rewrite ?app_String, ?app_empty)).
  reflexivity.
Qed.

Lemma sameRequestFields_refl o : sameRequestFields o o.
Proof. by repeat split. Qed.

Lemma sameRequestFields_trans o1 o2 o3 :
  sameRequestFields o1 o2 -> sameRequestFields o2 o3 -> sameRequestFields o1 o3.
Proof.
  intros (H1 & H2 & H3 & H4) (H1' & H2' & H3' & H4').
  repeat split; congruence.
Qed.

Lemma keepsRequestFields_ret {A} (a : A) : keepsRequestFields (ret a).
Proof. intros m. apply sameRequestFields_refl. Qed.

Lemma keepsRequestFields_panic {A} msg : keepsRequestFields (@panic A msg).
Proof. intros m. apply sameRequestFields_refl. Qed.

Lemma keepsRequestFields_getOpts : keepsRequestFields getOpts.
Proof. intros m. apply sameRequestFields_refl. Qed.

Lemma keepsRequestFields_emit e : keepsRequestFields (emit e).
Proof. intros m. apply sameRequestFields_refl. Qed.

Lemma keepsRequestFields_modifyOpts f :
  (forall o, sameRequestFields o (f o)) -> keepsRequestFields (modifyOpts f).
Proof. intros Hf m. apply Hf. Qed.

Lemma keepsRequestFields_bind {A B} (c : M A) (k : A -> M B) :
  keepsRequestFields c -> (forall a, keepsRequestFields (k a)) ->
  keepsRequestFields (bind c k).
Proof.
  intros Hc Hk m. unfold bind. specialize (Hc m).
  destruct (c m) as [[a|msg] m1]; simpl in *; [|done].
  eapply sameRequestFields_trans; [exact Hc | apply Hk].
Qed.

Ltac keepsRequestFields_go :=
  repeat first
    [ apply keepsRequestFields_ret | apply keepsRequestFields_panic
    | apply keepsRequestFields_getOpts | apply keepsRequestFields_emit
    | apply keepsRequestFields_modifyOpts; intros ?; by repeat split
    | apply keepsRequestFields_bind; [|intros ?]
    | progress cbv zeta
    | match goal with
      | |- keepsRequestFields (match ?x with _ => _ end) => destruct x
      end ].

Lemma keepsRequestFields_setupTTY env : keepsRequestFields (setupTTY env).
Proof. unfold setupTTY, Fprint, deref. keepsRequestFields_go. Qed.

Lemma keepsRequestFields_Run_containerName pod :
  keepsRequestFields (Run_containerName pod).
Proof. unfold Run_containerName, Fprint, deref, index0. keepsRequestFields_go. Qed.

Lemma returns_setupTTY env : returns (setupTTY env).
Proof.
  unfold setupTTY. returns_go. all: unfold Fprint, deref; returns_go.
Qed.

Lemma emits_setupTTY_quiet env :
  emits (fun e => negb (isAgentEvent e)) (setupTTY env).
Proof. unfold setupTTY, Fprint. emits_go. Qed.

Lemma getContainerIdByName_range_ready statuses containerName cs :
  List.NoDup (map cs_Name statuses) ->
  List.In cs statuses -> cs_Name cs = containerName -> cs_Ready cs = true ->
  getContainerIdByName_range statuses containerName = (cs_ContainerID cs, None).
Proof.
  induction statuses as [|cs0 statuses IH]; intros Hnd Hin Hname Hready;
    [destruct Hin|].
  simpl in Hnd. apply List.NoDup_cons_iff in Hnd as [Hfresh Hnd].
  simpl. destruct (String.eqb_spec (cs_Name cs0) containerName) as [Heq|Hne]; simpl.
  - destruct Hin as [-> | Hin].
    + by rewrite Hready.
    + exfalso. apply Hfresh. rewrite Heq, <- Hname. by apply in_map.
  - destruct Hin as [-> | Hin]; [congruence|]. by apply IH.
Qed.

Lemma Run_fn_request env hostIP containerId t q m uri :
  url_Parse env (agentAddress hostIP (AgentPort (opts m))) = inl uri ->
  Run_fn env hostIP containerId t q m
  = remoteExecute env "POST"
      {| Scheme := Scheme uri; Host := Host uri; Path := "/api/v1/debug";
         RawQuery :=
           url.Encode
             (<["command" := [json.encodeSlice (Command (opts m))]]>
                (<["container" := [containerId]]>
                   (<["image" := [Image (opts m)]]> ∅))) |}
      (Config_ (opts m)) (In (opts m)) (Out (opts m)) (ErrOut (opts m))
      (tty_Raw t) q m.
Proof.
  intros Hparse. unfold Run_fn. rewrite bind_getOpts.
  unfold agentAddress in Hparse. rewrite Hparse.
  unfold json.Marshal. cbv zeta. rewrite request_params. reflexivity.
Qed.

Lemma remoteExecute_eq env method u config stdin stdout stderr tty q m :
  let so := {| so_Stdin := stdin; so_Stdout := stdout; so_Stderr := stderr;
               so_Tty := tty; so_TerminalSizeQueue := q |} in
  remoteExecute env method u config stdin stdout stderr tty q m
  = match remotecommand_NewSPDYExecutor env config method u with
    | Some err => (Val (Some err), after m [EvNewSPDYExecutor config method u])
    | None =>
      (Val (executor_Stream env u so),
       after m [EvNewSPDYExecutor config method u; EvStream u so])
    end.
Proof.
  intros so. unfold remoteExecute. rewrite bind_emit.
  destruct (remotecommand_NewSPDYExecutor env config method u); [reflexivity|].
  rewrite bind_emit, after_after. reflexivity.
Qed.

(** [Safe] runs the body on a machine with the same receiver and trace,
    and hands back the body's result, receiver and trace. *)
Lemma Safe_shape t fn m :
  exists mX,
    opts mX = opts m /\ trace mX = trace m
    /\ fst (Safe t fn m) = fst (fn mX)
    /\ opts (snd (Safe t fn m)) = opts (snd (fn mX))
    /\ trace (snd (Safe t fn m)) = trace (snd (fn mX)).
Proof.
  unfold Safe. destruct (IsTerminalIn t).
  - set (m1 := if tty_Raw t then _ else m). exists m1.
    assert (opts m1 = opts m /\ trace m1 = trace m) as [-> ->]
      by (subst m1; by destruct (tty_Raw t)).
    by destruct (fn m1) as [r m2].
  - by exists m.
Qed.

Lemma filter_isRequest_quiet evs :
  forallb (fun e => negb (isAgentEvent e)) evs = true ->
  List.filter isRequest evs = []
  /\ forall u so, ~ List.In (EvStream u so) evs.
Proof.
  induction evs as [|e evs IH]; simpl; [by split; [|intros u so []]|].
  intros [He Hevs]%andb_true_iff. destruct (IH Hevs) as [IH1 IH2].
  split.
  - destruct e; simpl in *; try done.
  - intros u so [-> | Hin]; [discriminate|]. by apply (IH2 u so).
Qed.

Lemma session_stream_event (first : Event) evs1 t (last : list Event) request :
  (forall u so, ~ List.In (EvStream u so) evs1) ->
  forall u so,
    List.In (EvStream u so) ([first] ++ evs1 ++ [EvMonitorSize t] ++ last)%list ->
    isAgentEvent first = false ->
    (forall e, List.In e last ->
               match e with EvStream u' _ => u' = request | _ => True end) ->
    u = request.
Proof.
  intros Hq u so Hin Hfirst Hlast. simpl in Hin.
  destruct Hin as [Hin|Hin]; [by subst first|].
  apply in_app_iff in Hin as [Hin|Hin]; [by destruct (Hq u so)|].
  simpl in Hin. destruct Hin as [Hin|Hin]; [discriminate|].
  apply (Hlast _ Hin).
Qed.

(** Once the container is resolved, [Run] hands the executor one
    request, built from the pod's host address and the receiver. *)
Lemma Run_session_request env pod hostIP containerName containerId m uri :
  getContainerIdByName pod containerName = (containerId, None) ->
  url_Parse env (agentAddress hostIP (AgentPort (opts m))) = inl uri ->
  let request :=
    {| Scheme := Scheme uri; Host := Host uri; Path := "/api/v1/debug";
       RawQuery :=
         url.Encode
           (<["command" := [json.encodeSlice (Command (opts m))]]>
              (<["container" := [containerId]]>
                 (<["image" := [Image (opts m)]]> ∅))) |} in
  exists evs,
    trace (snd (Run_session env pod hostIP containerName m)) = (trace m ++ evs)%list
    /\ List.filter isRequest evs
       = [EvNewSPDYExecutor (Config_ (opts m)) "POST" request]
    /\ forall u so, List.In (EvStream u so) evs -> u = request.
Proof.
  intros Hid Hparse request. unfold Run_session. rewrite Hid.
  rewrite bind_emit.
  set (m0 := after m _).
  destruct (returns_setupTTY env m0) as (t & Hret).
  pose proof (keepsRequestFields_setupTTY env m0) as Hkeep.
  destruct (emits_setupTTY_quiet env m0) as (evs1 & Ht1 & HP1).
  destruct (setupTTY env m0) as [r m1] eqn:Hs. simpl in Hret, Hkeep, Ht1.
  subst r. rewrite (bind_val _ _ _ _ _ Hs).
  rewrite (setupTTY_Raw env m0 t m1 Hs).
  unfold MonitorSize. repeat step.
  set (m2 := {| opts := set_ErrOut None (opts m1); termios := _; trace := _ |}).
  destruct (Safe_shape t (Run_fn env hostIP containerId t (term_MonitorSize env t)) m2)
    as (mX & HoX & HtX & Hfst & _ & Htr).
  assert (sameRequestFields (opts m) (opts mX)) as (Himg & Hcmd & Hport & Hcfg).
  { rewrite HoX. subst m2. cbn [opts].
    destruct Hkeep as (H1 & H2 & H3 & H4). subst m0. cbn [opts after] in *.
    by repeat split. }
  assert (url_Parse env (agentAddress hostIP (AgentPort (opts mX))) = inl uri) as HparseX
    by (by rewrite Hport).
  rewrite (Run_fn_request env hostIP containerId t _ mX uri HparseX) in Hfst, Htr.
  rewrite remoteExecute_eq in Hfst, Htr. rewrite Himg, Hcmd, Hcfg in Hfst, Htr.
  fold request in Hfst, Htr.
  unfold bind at 1.
  destruct (Safe t _ m2) as [r m3]. simpl in Hfst, Htr.
  destruct (filter_isRequest_quiet evs1 HP1) as [Hq1 Hq2].
  assert (trace mX = (trace m ++ [EvStdout ("containerId:[" ++ containerId ++ "]" ++ LF ++ LF)]
                        ++ evs1 ++ [EvMonitorSize t])%list) as HtX'.
  { rewrite HtX. subst m2. cbn [trace]. rewrite Ht1. subst m0. cbn [trace after].
    by rewrite <- !app_assoc. }
  destruct (remotecommand_NewSPDYExecutor env (Config_ (opts m)) "POST" request) as [err|].
  - simpl in Hfst, Htr. subst r. rewrite bind_emit. cbn [ret snd trace after].
    rewrite Htr, HtX', <- !app_assoc.
    eexists. split; [reflexivity|]. split.
    + simpl. rewrite !List.filter_app, Hq1. reflexivity.
    + intros u so Hin.
      apply (session_stream_event _ _ _ _ _ Hq2 u so Hin); [reflexivity|];
          intros e He; simpl in He; intuition (subst; done).
  - simpl in Hfst, Htr. subst r.
    destruct (executor_Stream env request _) as [err|].
    + rewrite bind_emit. cbn [ret snd trace after].
      rewrite Htr, HtX', <- !app_assoc.
      eexists. split; [reflexivity|]. split.
      * simpl. rewrite !List.filter_app, Hq1. reflexivity.
      * intros u so Hin.
        apply (session_stream_event _ _ _ _ _ Hq2 u so Hin); [reflexivity|];
          intros e He; simpl in He; intuition (subst; done).
    + cbn [ret snd trace].
      rewrite Htr, HtX', <- !app_assoc.
      eexists. split; [reflexivity|]. split.
      * simpl. rewrite !List.filter_app, Hq1. reflexivity.
      * intros u so Hin.
        apply (session_stream_event _ _ _ _ _ Hq2 u so Hin); [reflexivity|];
          intros e He; simpl in He; intuition (subst; done).
Qed.

(** C6: when the container resolves, the one request [Run] hands to the
    executor is a POST to the address parsed from
    [http://hostIP:agentPort], the host address being the pod status's,
    with the path [/api/v1/debug] and a query that encodes exactly three
    parameters: [image], the debug image; [container], the ContainerID of
    the matching status as it stands; [command], the JSON encoding of the
    command slice, an array of its elements in order.  The stream, when
    it is opened, is opened on that same request. *)
Theorem C6_debug_request env m podClient pod containerName m1 cs uri :
  PodClient (opts m) = Some podClient ->
  podClient (Namespace (opts m)) (PodName (opts m)) = inl pod ->
  completed pod = false ->
  Run_containerName pod (Run_prelude m pod) = (Val containerName, m1) ->
  List.NoDup (map cs_Name (ContainerStatuses (Status pod))) ->
  List.In cs (ContainerStatuses (Status pod)) ->
  cs_Name cs = containerName ->
  cs_Ready cs = true ->
  url_Parse env (agentAddress (HostIP (Status pod)) (AgentPort (opts m))) = inl uri ->
  let command := json.encodeSlice (Command (opts m)) in
  let params : url.Values :=
    <["command" := [command]]>
      (<["container" := [cs_ContainerID cs]]> (<["image" := [Image (opts m)]]> ∅)) in
  let request :=
    {| Scheme := Scheme uri; Host := Host uri; Path := "/api/v1/debug";
       RawQuery := url.Encode params |} in
  getContainerIdByName pod containerName = (cs_ContainerID cs, None)
  /\ (forall elems, Command (opts m) = Some elems ->
                    command = "[" ++ json.encodeElems elems ++ "]")
  /\ url.Encode params
     = "command=" ++ url.QueryEscape command
       ++ "&container=" ++ url.QueryEscape (cs_ContainerID cs)
       ++ "&image=" ++ url.QueryEscape (Image (opts m))
  /\ exists evs,
       trace (snd (Run env m)) = (trace m ++ evs)%list
       /\ List.filter isRequest evs
          = [EvNewSPDYExecutor (Config_ (opts m)) "POST" request]
       /\ forall u so, List.In (EvStream u so) evs -> u = request.
Proof.
  intros Hpc Hget Hph Hname Hnd Hin Hcs Hready Hparse command params request.
  assert (getContainerIdByName pod containerName = (cs_ContainerID cs, None)) as Hid.
  { unfold getContainerIdByName. by apply getContainerIdByName_range_ready. }
  split; [exact Hid|]. split.
  { intros elems He. subst command. by rewrite He. }
  split.
  { subst params. rewrite <- request_params. apply Encode_request. }
  pose proof (keepsRequestFields_Run_containerName pod (Run_prelude m pod))
    as (Himg & Hcmd & Hport & Hcfg).
  destruct (emits_Run_containerName pod (Run_prelude m pod)) as (evs0 & Ht0 & HP0).
  rewrite Hname in Himg, Hcmd, Hport, Hcfg, Ht0. cbn [snd opts Run_prelude after] in *.
  assert (url_Parse env (agentAddress (HostIP (Status pod)) (AgentPort (opts m1)))
          = inl uri) as Hparse1 by (by rewrite Hport).
  destruct (Run_session_request env pod (HostIP (Status pod)) containerName
              (cs_ContainerID cs) m1 uri Hid Hparse1) as (evs & Ht & Hreq & Hstream).
  rewrite Himg, Hcmd in Hreq, Hstream. rewrite Hcfg in Hreq.
  fold command params request in Hreq, Hstream.
  rewrite (Run_found env m podClient pod Hpc Hget Hph).
  rewrite (bind_val _ _ _ _ _ Hname), Ht, Ht0.
  unfold Run_prelude. cbn [after trace]. rewrite <- !app_assoc.
  destruct (filter_isRequest_quiet evs0 HP0) as [Hq1 Hq2].
  eexists. split; [reflexivity|]. split.
  - rewrite !List.filter_app, Hq1, Hreq. reflexivity.
  - intros u so Huso. rewrite !in_app_iff in Huso.
    destruct Huso as [Huso|[Huso|Huso]].
    + simpl in Huso. intuition discriminate.
    + by destruct (Hq2 u so).
    + by apply (Hstream u so).
Qed.

(** ** Bytes and bits *)

Lemma code_range a : 0 <= code a < 256.
Proof.
  unfold code. pose proof (N_ascii_bounded a) as H. lia.
Qed.

Lemma chr_code a : chr (code a) = a.
Proof. unfold chr, code. rewrite N2Z.id. apply ascii_N_embedding. Qed.

Lemma code_chr z : 0 <= z < 256 -> code (chr z) = z.
Proof.
  intros Hz. unfold chr, code. rewrite N_ascii_embedding by lia. lia.
Qed.

Lemma code_inj a b : code a = code b -> a = b.
Proof. intros H. by rewrite <- (chr_code a), H, chr_code. Qed.

Lemma chr_eq a z : code a = z -> chr z = a.
Proof. intros <-. apply chr_code. Qed.

(** Or-ing in low bits that the other operand does not have is adding. *)
Lemma lor_low_bits X y k :
  0 <= k -> X mod 2 ^ k = 0 -> 0 <= y < 2 ^ k -> Z.lor X y = X + y.
Proof.
  intros Hk HX Hy.
  assert (Z.land X y = 0) as Hdisj.
  { apply Z.bits_inj'. intros n Hn. rewrite Z.land_spec, Z.bits_0.
    destruct (Z.lt_ge_cases n k) as [Hlt|Hge].
    - assert (Z.testbit X n = false) as ->; [|reflexivity].
      rewrite (Z.div_mod X (2 ^ k)) by lia. rewrite HX, Z.add_0_r, Z.mul_comm.
      apply Z.mul_pow2_bits_low. lia.
    - assert (Z.testbit y n = false) as ->; [|apply andb_false_r].
      destruct (Z.eq_dec y 0) as [->|Hy0]; [apply Z.bits_0|].
      apply Z.bits_above_log2; [lia|].
      assert (Z.log2 y < k) by (apply Z.log2_lt_pow2; lia). lia. }
  rewrite <- Z.lxor_lor by exact Hdisj. symmetry. by apply Z.add_nocarry_lxor.
Qed.

Lemma land_low_bits x k : 0 <= k -> Z.land x (2 ^ k - 1) = x mod 2 ^ k.
Proof.
  intros Hk. rewrite <- Z.land_ones by exact Hk.
  by rewrite Z.ones_equiv, <- Z.sub_1_r.
Qed.

Lemma land_maskx x : Z.land x utf8.maskx = x mod 64.
Proof. apply (land_low_bits x 6). lia. Qed.

Lemma land_mask2 x : Z.land x utf8.mask2 = x mod 32.
Proof. apply (land_low_bits x 5). lia. Qed.

Lemma land_mask3 x : Z.land x utf8.mask3 = x mod 16.
Proof. apply (land_low_bits x 4). lia. Qed.

Lemma land_mask4 x : Z.land x utf8.mask4 = x mod 8.
Proof. apply (land_low_bits x 3). lia. Qed.

Lemma land_0xF x : Z.land x 0xF = x mod 16.
Proof. apply (land_low_bits x 4). lia. Qed.

(** The bit operations of the UTF-8 codec, as arithmetic. *)
Ltac bits_to_arith :=
  rewrite ?land_maskx, ?land_mask2, ?land_mask3, ?land_mask4, ?land_0xF,
    ?Z.shiftl_mul_pow2, ?Z.shiftr_div_pow2 by lia;
  change (2 ^ 6) with 64; change (2 ^ 12) with 4096;
  change (2 ^ 18) with 262144; change (2 ^ 4) with 16.


(** ** UTF-8: a decoded multi-byte sequence encodes back to itself *)

Lemma first_spec p0 sz lo hi :
  utf8.first p0 = Some (sz, lo, hi) ->
  (sz = 2%nat /\ 0xC2 <= p0 <= 0xDF /\ lo = 0x80 /\ hi = 0xBF)
  \/ (sz = 3%nat /\ p0 = 0xE0 /\ lo = 0xA0 /\ hi = 0xBF)
  \/ (sz = 3%nat /\ p0 = 0xED /\ lo = 0x80 /\ hi = 0x9F)
  \/ (sz = 3%nat /\ 0xE1 <= p0 <= 0xEF /\ p0 <> 0xED /\ lo = 0x80 /\ hi = 0xBF)
  \/ (sz = 4%nat /\ p0 = 0xF0 /\ lo = 0x90 /\ hi = 0xBF)
  \/ (sz = 4%nat /\ 0xF1 <= p0 <= 0xF3 /\ lo = 0x80 /\ hi = 0xBF)
  \/ (sz = 4%nat /\ p0 = 0xF4 /\ lo = 0x80 /\ hi = 0x8F).
Proof.
  unfold utf8.first, utf8.locb, utf8.hicb.
  repeat match goal with
         | |- context [if ?b then _ else _] => destruct b eqn:?
         end;
    intros [= <- <- <-];
    repeat match goal with
           | H : (_ <? _) = true |- _ => apply Z.ltb_lt in H
           | H : (_ <? _) = false |- _ => apply Z.ltb_ge in H
           | H : (_ <=? _) = true |- _ => apply Z.leb_le in H
           | H : (_ <=? _) = false |- _ => apply Z.leb_gt in H
           | H : (_ =? _) = true |- _ => apply Z.eqb_eq in H
           | H : (_ =? _) = false |- _ => apply Z.eqb_neq in H
           end;
    lia.
Qed.

Lemma rune2_arith p0 b1 :
  0xC0 <= p0 <= 0xDF -> 0x80 <= b1 <= 0xBF ->
  Z.lor (Z.shiftl (Z.land p0 utf8.mask2) 6) (Z.land b1 utf8.maskx)
  = (p0 - 0xC0) * 64 + (b1 - 0x80).
Proof.
  intros. bits_to_arith.
  rewrite (lor_low_bits _ _ 6); [ | lia | | ].
  all: Z.div_mod_to_equations; lia.
Qed.

Lemma rune3_arith p0 b1 b2 :
  0xE0 <= p0 <= 0xEF -> 0x80 <= b1 <= 0xBF -> 0x80 <= b2 <= 0xBF ->
  Z.lor (Z.lor (Z.shiftl (Z.land p0 utf8.mask3) 12)
               (Z.shiftl (Z.land b1 utf8.maskx) 6))
        (Z.land b2 utf8.maskx)
  = (p0 - 0xE0) * 4096 + (b1 - 0x80) * 64 + (b2 - 0x80).
Proof.
  intros. bits_to_arith.
  rewrite (lor_low_bits (_ * 4096) _ 12); [ | lia | | ].
  2, 3: Z.div_mod_to_equations; lia.
  rewrite (lor_low_bits _ _ 6); [ | lia | | ].
  all: Z.div_mod_to_equations; lia.
Qed.

Lemma rune4_arith p0 b1 b2 b3 :
  0xF0 <= p0 <= 0xF7 -> 0x80 <= b1 <= 0xBF -> 0x80 <= b2 <= 0xBF ->
  0x80 <= b3 <= 0xBF ->
  Z.lor (Z.lor (Z.lor (Z.shiftl (Z.land p0 utf8.mask4) 18)
                      (Z.shiftl (Z.land b1 utf8.maskx) 12))
               (Z.shiftl (Z.land b2 utf8.maskx) 6))
        (Z.land b3 utf8.maskx)
  = (p0 - 0xF0) * 262144 + (b1 - 0x80) * 4096 + (b2 - 0x80) * 64 + (b3 - 0x80).
Proof.
  intros. bits_to_arith.
  rewrite (lor_low_bits (_ * 262144) _ 18); [ | lia | | ].
  2, 3: Z.div_mod_to_equations; lia.
  rewrite (lor_low_bits _ (_ * 64) 12); [ | lia | | ].
  2, 3: Z.div_mod_to_equations; lia.
  rewrite (lor_low_bits _ _ 6); [ | lia | | ].
  all: Z.div_mod_to_equations; lia.
Qed.

Lemma EncodeRune_2 r :
  0x80 <= r <= 0x7FF ->
  utf8.EncodeRune r
  = String (chr (0xC0 + r / 64)) (String (chr (0x80 + r mod 64)) EmptyString).
Proof.
  intros Hr. unfold utf8.EncodeRune, utf8.rune1Max, utf8.rune2Max.
  rewrite (proj2 (Z.leb_le 0 r)) by lia.
  rewrite (proj2 (Z.leb_gt r 0x7F)) by lia.
  rewrite (proj2 (Z.leb_le r 0x7FF)) by lia. cbn [andb].
  unfold utf8.t2, utf8.tx. bits_to_arith.
  rewrite (lor_low_bits 0xC0 _ 5); [ | lia | reflexivity | Z.div_mod_to_equations; lia].
  rewrite (lor_low_bits 0x80 _ 6); [ | lia | reflexivity | Z.div_mod_to_equations; lia].
  reflexivity.
Qed.

Lemma encode3_arith r :
  0x800 <= r <= 0xFFFF ->
  utf8.encode3 r
  = String (chr (0xE0 + r / 4096))
      (String (chr (0x80 + (r / 64) mod 64))
         (String (chr (0x80 + r mod 64)) EmptyString)).
Proof.
  intros Hr. unfold utf8.encode3, utf8.t3, utf8.tx. bits_to_arith.
  rewrite (lor_low_bits 0xE0 _ 4); [ | lia | reflexivity | Z.div_mod_to_equations; lia].
  rewrite !(lor_low_bits 0x80 _ 6); try lia; try reflexivity.
  all: Z.div_mod_to_equations; lia.
Qed.

Lemma EncodeRune_3 r :
  0x800 <= r <= 0xFFFF -> ~ (0xD800 <= r <= 0xDFFF) ->
  utf8.EncodeRune r
  = String (chr (0xE0 + r / 4096))
      (String (chr (0x80 + (r / 64) mod 64))
         (String (chr (0x80 + r mod 64)) EmptyString)).
Proof.
  intros Hr Hs. unfold utf8.EncodeRune, utf8.rune1Max, utf8.rune2Max,
    utf8.rune3Max, utf8.MaxRune, utf8.surrogateMin, utf8.surrogateMax.
  rewrite (proj2 (Z.leb_le 0 r)) by lia.
  rewrite (proj2 (Z.leb_gt r 0x7F)) by lia.
  rewrite (proj2 (Z.leb_gt r 0x7FF)) by lia.
  rewrite (proj2 (Z.ltb_ge r 0)) by lia.
  rewrite (proj2 (Z.ltb_ge 0x10FFFF r)) by lia.
  rewrite (proj2 (Z.leb_le r 0xFFFF)) by lia. cbn [andb orb].
  assert ((0xD800 <=? r) && (r <=? 0xDFFF) = false) as ->.
  { destruct (Z.leb_spec 0xD800 r), (Z.leb_spec r 0xDFFF); try reflexivity. lia. }
  by apply encode3_arith.
Qed.

Lemma EncodeRune_4 r :
  0x10000 <= r <= 0x10FFFF ->
  utf8.EncodeRune r
  = String (chr (0xF0 + r / 262144))
      (String (chr (0x80 + (r / 4096) mod 64))
         (String (chr (0x80 + (r / 64) mod 64))
            (String (chr (0x80 + r mod 64)) EmptyString))).
Proof.
  intros Hr. unfold utf8.EncodeRune, utf8.rune1Max, utf8.rune2Max,
    utf8.rune3Max, utf8.MaxRune, utf8.surrogateMin, utf8.surrogateMax.
  rewrite (proj2 (Z.leb_le 0 r)) by lia.
  rewrite (proj2 (Z.leb_gt r 0x7F)) by lia.
  rewrite (proj2 (Z.leb_gt r 0x7FF)) by lia.
  rewrite (proj2 (Z.ltb_ge r 0)) by lia.
  rewrite (proj2 (Z.ltb_ge 0x10FFFF r)) by lia.
  rewrite (proj2 (Z.leb_gt r 0xDFFF)) by lia.
  rewrite (proj2 (Z.leb_gt r 0xFFFF)) by lia. cbn [andb orb].
  rewrite andb_false_r. cbn [orb].
  unfold utf8.t4, utf8.tx. bits_to_arith.
  rewrite (lor_low_bits 0xF0 _ 3); [ | lia | reflexivity | Z.div_mod_to_equations; lia].
  rewrite !(lor_low_bits 0x80 _ 6); try lia; try reflexivity.
  all: Z.div_mod_to_equations; lia.
Qed.

Ltac bool_to_Prop :=
  repeat match goal with
         | H : (_ && _) = true |- _ => apply andb_true_iff in H as [? ?]
         | H : (_ || _) = false |- _ => apply orb_false_iff in H as [? ?]
         | H : negb _ = false |- _ => apply negb_false_iff in H
         | H : negb _ = true |- _ => apply negb_true_iff in H
         | H : (_ <? _) = true |- _ => apply Z.ltb_lt in H
         | H : (_ <? _) = false |- _ => apply Z.ltb_ge in H
         | H : (_ <=? _) = true |- _ => apply Z.leb_le in H
         | H : (_ <=? _) = false |- _ => apply Z.leb_gt in H
         | H : (_ =? _) = true |- _ => apply Z.eqb_eq in H
         | H : (_ =? _) = false |- _ => apply Z.eqb_neq in H
         end.

Lemma first_size p0 sz lo hi :
  utf8.first p0 = Some (sz, lo, hi) -> sz = 2%nat \/ sz = 3%nat \/ sz = 4%nat.
Proof. intros H. destruct (first_spec _ _ _ _ H); intuition. Qed.

Lemma DecodeRune_Decoded s c size :
  utf8.DecodeRune s = (c, size) -> (2 <= size)%nat ->
  Decoded (firstn_string size s) c size
  /\ s = firstn_string size s ++ skipn_string size s.
Proof.
  destruct s as [|a0 s1]; simpl; [intros [= <- <-]; lia|].
  destruct (code a0 <? utf8.RuneSelf); [intros [= <- <-]; lia|].
  destruct (utf8.first (code a0)) as [[[sz lo] hi]|] eqn:Hf;
    [|intros [= <- <-]; lia].
  destruct s1 as [|a1 s2]; [intros [= <- <-]; lia|].
  destruct ((code a1 <? lo) || (hi <? code a1)) eqn:H1; [intros [= <- <-]; lia|].
  bool_to_Prop.
  destruct (first_size _ _ _ _ Hf) as [-> | [-> | ->]]; simpl.
  - intros [= <- <-] _. split; [|reflexivity].
    apply Decoded2 with lo hi; [exact Hf | lia].
  - destruct s2 as [|a2 s3]; [intros [= <- <-]; lia|].
    destruct (negb (utf8.cont (code a2))) eqn:H2; [intros [= <- <-]; lia|].
    intros [= <- <-] _. split; [|reflexivity].
    unfold utf8.cont in H2. bool_to_Prop.
    apply Decoded3 with lo hi; [exact Hf | lia | lia].
  - destruct s2 as [|a2 s3]; [intros [= <- <-]; lia|].
    destruct (negb (utf8.cont (code a2))) eqn:H2; [intros [= <- <-]; lia|].
    destruct s3 as [|a3 s4]; [intros [= <- <-]; lia|].
    destruct (negb (utf8.cont (code a3))) eqn:H3; [intros [= <- <-]; lia|].
    intros [= <- <-] _. split; [|reflexivity].
    unfold utf8.cont in H2, H3. bool_to_Prop.
    apply Decoded4 with lo hi; [exact Hf | lia | lia | lia].
Qed.

Lemma Decoded_DecodeRune p c size t :
  Decoded p c size -> utf8.DecodeRune (p ++ t) = (c, size).
Proof.
  intros [a0 a1 lo hi Hf H1 | a0 a1 a2 lo hi Hf H1 H2
         | a0 a1 a2 a3 lo hi Hf H1 H2 H3];
    rewrite ?app_String, ?app_empty;
    cbv beta iota zeta delta [utf8.DecodeRune];
    (assert ((code a0 <? utf8.RuneSelf) = false) as ->
       by (apply Z.ltb_ge; unfold utf8.RuneSelf;
           destruct (first_spec _ _ _ _ Hf); lia));
    rewrite Hf;
    (assert ((code a1 <? lo) || (hi <? code a1) = false) as ->
       by (apply orb_false_iff; split; apply Z.ltb_ge; lia));
    cbn [Nat.leb];
    try (assert (negb (utf8.cont (code a2)) = false) as ->
           by (apply negb_false_iff; unfold utf8.cont;
               apply andb_true_iff; split; apply Z.leb_le; lia));
    try (assert (negb (utf8.cont (code a3)) = false) as ->
           by (apply negb_false_iff; unfold utf8.cont;
               apply andb_true_iff; split; apply Z.leb_le; lia));
    reflexivity.
Qed.

Lemma Decoded_EncodeRune p c size :
  Decoded p c size -> utf8.EncodeRune c = p /\ String.length p = size.
Proof.
  intros [a0 a1 lo hi Hf H1 | a0 a1 a2 lo hi Hf H1 H2
         | a0 a1 a2 a3 lo hi Hf H1 H2 H3];
    (split; [|reflexivity]);
    pose proof (code_range a0) as R0; pose proof (code_range a1) as R1;
    unfold utf8.locb, utf8.hicb in *;
    destruct (first_spec _ _ _ _ Hf) as [Hc|[Hc|[Hc|[Hc|[Hc|[Hc|Hc]]]]]];
    destruct Hc as (Hsz & Hc); try discriminate Hsz;
    decompose [and] Hc; clear Hc; subst lo hi.
  - rewrite rune2_arith by lia. rewrite EncodeRune_2 by lia.
    f_equal; [|f_equal]; apply chr_eq; Z.div_mod_to_equations; lia.
  - rewrite rune3_arith by lia. rewrite EncodeRune_3 by lia.
    f_equal; [|f_equal; [|f_equal]]; apply chr_eq; Z.div_mod_to_equations; lia.
  - rewrite rune3_arith by lia. rewrite EncodeRune_3 by lia.
    f_equal; [|f_equal; [|f_equal]]; apply chr_eq; Z.div_mod_to_equations; lia.
  - rewrite rune3_arith by lia. rewrite EncodeRune_3 by lia.
    f_equal; [|f_equal; [|f_equal]]; apply chr_eq; Z.div_mod_to_equations; lia.
  - rewrite rune4_arith by lia. rewrite EncodeRune_4 by lia.
    f_equal; [|f_equal; [|f_equal; [|f_equal]]]; apply chr_eq;
      Z.div_mod_to_equations; lia.
  - rewrite rune4_arith by lia. rewrite EncodeRune_4 by lia.
    f_equal; [|f_equal; [|f_equal; [|f_equal]]]; apply chr_eq;
      Z.div_mod_to_equations; lia.
  - rewrite rune4_arith by lia. rewrite EncodeRune_4 by lia.
    f_equal; [|f_equal; [|f_equal; [|f_equal]]]; apply chr_eq;
      Z.div_mod_to_equations; lia.
Qed.

(** ** JSON: what [Marshal] writes, [Unmarshal] reads back *)

Lemma length_app_string (s t : string) :
  String.length (s ++ t) = (String.length s + String.length t)%nat.
Proof. induction s as [|a s IH]; [reflexivity|]. rewrite app_String. simpl. by rewrite IH. Qed.

Lemma skipn_string_app (p t : string) :
  skipn_string (String.length p) (p ++ t) = t.
Proof. induction p as [|a p IH]; [reflexivity|]. rewrite app_String. exact IH. Qed.

Lemma length_skipn_string n s :
  String.length (skipn_string n s) = (String.length s - n)%nat.
Proof.
  revert s. induction n as [|n IH]; intros [|a s]; simpl; try reflexivity; try lia.
  apply IH.
Qed.

Lemma hexVal_hexDigit k :
  0 <= k < 16 -> json.hexVal (json.hexDigit k) = Some k.
Proof.
  intros Hk.
  assert (k = 0 \/ k = 1 \/ k = 2 \/ k = 3 \/ k = 4 \/ k = 5 \/ k = 6 \/ k = 7
          \/ k = 8 \/ k = 9 \/ k = 10 \/ k = 11 \/ k = 12 \/ k = 13 \/ k = 14
          \/ k = 15) as H by lia.
  repeat (destruct H as [-> | H]; [reflexivity|]). subst k. reflexivity.
Qed.

Lemma getu4_escape b t :
  0 <= b < 256 ->
  json.getu4
    (String json.backslash
       (String "u" (String "0" (String "0"
          (String (json.hexDigit (Z.shiftr b 4))
             (String (json.hexDigit (Z.land b 0xF)) t))))))
  = b.
Proof.
  intros Hb. unfold json.getu4.
  change (code json.backslash =? 0x5C) with true.
  change (code "u" =? 0x75) with true. cbn [andb].
  change (json.hexVal "0") with (Some 0).
  rewrite land_0xF, Z.shiftr_div_pow2 by lia. change (2 ^ 4) with 16.
  rewrite !hexVal_hexDigit by (Z.div_mod_to_equations; lia).
  Z.div_mod_to_equations; lia.
Qed.

Lemma DecodeRune_ascii a s :
  code a < utf8.RuneSelf -> utf8.DecodeRune (String a s) = (code a, 1%nat).
Proof.
  intros Ha. unfold utf8.DecodeRune. cbv zeta.
  by rewrite (proj2 (Z.ltb_lt _ _) Ha).
Qed.

Lemma DecodeRune_size a s c size :
  utf8.DecodeRune (String a s) = (c, size) ->
  utf8.RuneSelf <= code a ->
  (c = utf8.RuneError /\ size = 1%nat) \/ (2 <= size)%nat.
Proof.
  intros H Ha. revert H. unfold utf8.DecodeRune. cbv zeta.
  rewrite (proj2 (Z.ltb_ge _ _) Ha).
  repeat match goal with
         | |- context [match ?x with _ => _ end] => destruct x
         end;
    intros [= <- <-]; auto; right; lia.
Qed.

Lemma EncodeRune_ascii b :
  0 <= b <= 0x7F -> utf8.EncodeRune b = String (chr b) EmptyString.
Proof.
  intros Hb. unfold utf8.EncodeRune, utf8.rune1Max.
  rewrite (proj2 (Z.leb_le 0 b)), (proj2 (Z.leb_le b 0x7F)) by lia.
  reflexivity.
Qed.

Lemma emitted_Some prefix decoded rest :
  json.emitted prefix (Some (decoded, rest)) = Some (prefix ++ decoded, rest).
Proof. reflexivity. Qed.

Lemma htmlSafeSet_spec b :
  json.htmlSafeSet b = true ->
  0x20 <= b < 0x80 /\ b <> 0x22 /\ b <> 0x5C.
Proof.
  unfold json.htmlSafeSet. intros H.
  repeat (apply andb_true_iff in H as [H ?]). bool_to_Prop. lia.
Qed.

Lemma unquote_loop_u fuel t :
  json.unquote_loop (S fuel) (String json.backslash (String "u" t))
  = let s := String json.backslash (String "u" t) in
    let rr := json.getu4 s in
    if rr <? 0 then None
    else
      let s6 := skipn_string 6 s in
      if utf16.IsSurrogate rr then
        let dec := utf16.DecodeRune rr (json.getu4 s6) in
        if negb (dec =? utf16.replacementChar) then
          json.emitted (utf8.EncodeRune dec)
            (json.unquote_loop fuel (skipn_string 6 s6))
        else
          json.emitted (utf8.EncodeRune utf16.replacementChar)
            (json.unquote_loop fuel s6)
      else json.emitted (utf8.EncodeRune rr) (json.unquote_loop fuel s6).
Proof. reflexivity. Qed.

(** One turn of the decoder on what one turn of the encoder wrote for an
    ASCII byte. *)
Lemma unquote_ascii fuel a t :
  code a < utf8.RuneSelf ->
  json.unquote_loop (S fuel)
    ((if json.htmlSafeSet (code a) then String a EmptyString else json.escape a) ++ t)
  = json.emitted (String a EmptyString) (json.unquote_loop fuel t).
Proof.
  intros Ha. pose proof (code_range a) as Hr. unfold utf8.RuneSelf in Ha.
  destruct (json.htmlSafeSet (code a)) eqn:Hsafe.
  - apply htmlSafeSet_spec in Hsafe as (H1 & H2 & H3).
    rewrite app_String, app_empty. cbn [json.unquote_loop]. cbv zeta.
    rewrite (proj2 (Z.eqb_neq _ _) H2), (proj2 (Z.eqb_neq _ _) H3).
    rewrite (proj2 (Z.ltb_ge (code a) 0x20)) by lia.
    unfold utf8.RuneSelf. rewrite (proj2 (Z.ltb_lt (code a) 0x80)) by lia.
    reflexivity.
  - unfold json.escape. cbv zeta.
    destruct ((code a =? 0x5C) || (code a =? 0x22)) eqn:E1.
    { rewrite !app_String, app_empty. cbn [json.unquote_loop]. cbv zeta.
      change (code json.backslash =? 0x22) with false.
      change (code json.backslash =? 0x5C) with true. cbv iota.
      assert ((code a =? 0x22) || (code a =? 0x5C) || (code a =? 0x2F) = true) as ->.
      { apply orb_true_iff in E1 as [-> | ->]; [by rewrite orb_true_r | done]. }
      reflexivity. }
    destruct (code a =? 0x0A) eqn:E2.
    { apply Z.eqb_eq in E2. rewrite !app_String, app_empty.
      cbn [json.unquote_loop]. cbv zeta.
      change (code json.backslash =? 0x22) with false.
      change (code json.backslash =? 0x5C) with true. cbv iota.
      by assert (a = "010"%char) as -> by (apply code_inj; exact E2). }
    destruct (code a =? 0x0D) eqn:E3.
    { apply Z.eqb_eq in E3. rewrite !app_String, app_empty.
      cbn [json.unquote_loop]. cbv zeta.
      change (code json.backslash =? 0x22) with false.
      change (code json.backslash =? 0x5C) with true. cbv iota.
      by assert (a = "013"%char) as -> by (apply code_inj; exact E3). }
    destruct (code a =? 0x09) eqn:E4.
    { apply Z.eqb_eq in E4. rewrite !app_String, app_empty.
      cbn [json.unquote_loop]. cbv zeta.
      change (code json.backslash =? 0x22) with false.
      change (code json.backslash =? 0x5C) with true. cbv iota.
      by assert (a = "009"%char) as -> by (apply code_inj; exact E4). }
    rewrite !app_String, app_empty. rewrite unquote_loop_u. cbv zeta.
    rewrite getu4_escape by lia.
    rewrite (proj2 (Z.ltb_ge (code a) 0)) by lia.
    assert (utf16.IsSurrogate (code a) = false) as ->.
    { unfold utf16.IsSurrogate, utf16.surr1. apply andb_false_iff. left.
      apply Z.leb_gt. lia. }
    rewrite EncodeRune_ascii by lia. by rewrite chr_code.
Qed.

Lemma Decoded_head p c size :
  Decoded p c size ->
  exists a p', p = String a p' /\ 0xC2 <= code a < 256.
Proof.
  intros [a0 a1 lo hi Hf H1 | a0 a1 a2 lo hi Hf H1 H2
         | a0 a1 a2 a3 lo hi Hf H1 H2 H3];
    eexists _, _; (split; [reflexivity|]);
    pose proof (code_range a0);
    destruct (first_spec _ _ _ _ Hf); lia.
Qed.

(** One turn of the decoder on a multi-byte sequence copied as it is. *)
Lemma unquote_multibyte fuel p c size t :
  Decoded p c size ->
  json.unquote_loop (S fuel) (p ++ t)
  = json.emitted p (json.unquote_loop fuel t).
Proof.
  intros Hd. pose proof (Decoded_DecodeRune p c size t Hd) as Hdec.
  destruct (Decoded_EncodeRune p c size Hd) as [Henc Hlen].
  destruct (Decoded_head p c size Hd) as (a & p' & -> & Ha).
  rewrite app_String in *. cbn [json.unquote_loop]. cbv zeta.
  rewrite (proj2 (Z.eqb_neq (code a) 0x22)) by lia.
  rewrite (proj2 (Z.eqb_neq (code a) 0x5C)) by lia.
  rewrite (proj2 (Z.ltb_ge (code a) 0x20)) by lia.
  unfold utf8.RuneSelf. rewrite (proj2 (Z.ltb_ge (code a) 0x80)) by lia.
  rewrite Hdec, Henc. rewrite <- Hlen at 1.
  rewrite <- app_String. by rewrite skipn_string_app.
Qed.

(** One turn of the decoder on the escape of U+2028 or U+2029. *)
Lemma unquote_line_separator fuel c t :
  c = 0x2028 \/ c = 0x2029 ->
  json.unquote_loop (S fuel)
    (String json.backslash "u202"
       ++ String (json.hexDigit (Z.land c 0xF)) EmptyString ++ t)
  = json.emitted (utf8.EncodeRune c) (json.unquote_loop fuel t).
Proof. intros [-> | ->]; reflexivity. Qed.

Lemma length_escape a : (2 <= String.length (json.escape a))%nat.
Proof.
  unfold json.escape. cbv zeta.
  repeat match goal with
         | |- context [if ?b then _ else _] => destruct b
         end; simpl; lia.
Qed.

(** The decoder reads back what the encoder wrote between the quotes,
    for a string that is valid UTF-8. *)
Lemma unquote_string_loop n : forall s,
  (String.length s <= n)%nat ->
  utf8.ValidString_loop n s = true ->
  forall fuel rest,
    (String.length (json.string_loop n s) < fuel)%nat ->
    json.unquote_loop fuel (json.string_loop n s ++ String json.quote rest)
    = Some (s, rest).
Proof.
  induction n as [|n IH]; intros s Hlen Hvalid fuel rest Hfuel.
  - destruct s as [|a s]; [|simpl in Hlen; lia].
    destruct fuel as [|fuel]; [simpl in Hfuel; lia|]. reflexivity.
  - destruct s as [|a s].
    { destruct fuel as [|fuel]; [simpl in Hfuel; lia|]. reflexivity. }
    cbn [utf8.ValidString_loop] in Hvalid.
    cbn [json.string_loop] in Hfuel |- *. cbv zeta in Hfuel |- *.
    destruct (code a <? utf8.RuneSelf) eqn:Hascii.
    + apply Z.ltb_lt in Hascii.
      rewrite (DecodeRune_ascii a s Hascii) in Hvalid.
      destruct ((code a =? utf8.RuneError) && (1 =? 1)%nat); [discriminate|].
      cbn [skipn_string] in Hvalid.
      assert (forall t, (if json.htmlSafeSet (code a)
                         then String a (json.string_loop n s)
                         else json.escape a ++ json.string_loop n s) ++ t
                        = (if json.htmlSafeSet (code a) then String a EmptyString
                           else json.escape a) ++ json.string_loop n s ++ t) as Hshape.
      { intros t. destruct (json.htmlSafeSet (code a)).
        - reflexivity.
        - apply string_app_assoc. }
      rewrite Hshape.
      destruct fuel as [|fuel]; [lia|].
      rewrite unquote_ascii by exact Hascii.
      rewrite IH; [reflexivity | simpl in Hlen; lia | exact Hvalid |].
      destruct (json.htmlSafeSet (code a)).
      * simpl in Hfuel. lia.
      * rewrite length_app_string in Hfuel. pose proof (length_escape a). lia.
    + apply Z.ltb_ge in Hascii.
      destruct (utf8.DecodeRune (String a s)) as [c size] eqn:Hdec.
      destruct ((c =? utf8.RuneError) && (size =? 1)%nat) eqn:Hbad; [discriminate|].
      destruct (DecodeRune_size a s c size Hdec Hascii) as [[-> ->] | Hsize].
      { discriminate Hbad. }
      destruct (DecodeRune_Decoded _ c size Hdec Hsize) as [Hd Hsplit].
      destruct (Decoded_EncodeRune _ c size Hd) as [Henc Hplen].
      set (p := firstn_string size (String a s)) in *.
      set (s' := skipn_string size (String a s)) in *.
      assert (String.length s' <= n)%nat as Hlen'.
      { subst s'. rewrite length_skipn_string. simpl in Hlen |- *. lia. }
      destruct fuel as [|fuel]; [lia|].
      destruct ((c =? 0x2028) || (c =? 0x2029)) eqn:Hsep.
      * rewrite !string_app_assoc.
        rewrite unquote_line_separator
          by (apply orb_true_iff in Hsep as [H|H]; apply Z.eqb_eq in H; auto).
        rewrite IH; [| exact Hlen' | exact Hvalid |].
        -- rewrite emitted_Some, Henc. by rewrite Hsplit.
        -- rewrite !length_app_string in Hfuel. simpl in Hfuel. lia.
      * rewrite string_app_assoc.
        rewrite (unquote_multibyte fuel p c size _ Hd).
        rewrite IH; [| exact Hlen' | exact Hvalid |].
        -- rewrite emitted_Some. by rewrite Hsplit.
        -- rewrite length_app_string in Hfuel. lia.
Qed.

Lemma decodeString_encodeString s rest :
  utf8.ValidString s = true ->
  json.decodeString (json.encodeString s ++ rest) = Some (s, rest).
Proof.
  intros Hvalid. unfold json.encodeString, json.decodeString.
  rewrite app_String, string_app_assoc, app_String, app_empty.
  change (code json.quote =? 0x22) with true. cbv iota.
  apply unquote_string_loop; [lia | exact Hvalid |].
  rewrite length_app_string. simpl. lia.
Qed.

Lemma skipSpace_encodeString s t :
  json.skipSpace (json.encodeString s ++ t) = json.encodeString s ++ t.
Proof. reflexivity. Qed.

Lemma length_encodeString s : (2 <= String.length (json.encodeString s))%nat.
Proof.
  unfold json.encodeString. simpl. rewrite length_app_string. simpl. lia.
Qed.

Lemma length_encodeElems l :
  (length l <= String.length (json.encodeElems l))%nat.
Proof.
  induction l as [|s [|s' l] IH]; simpl in *.
  - lia.
  - pose proof (length_encodeString s). lia.
  - rewrite !length_app_string. pose proof (length_encodeString s). simpl. lia.
Qed.

Lemma encodeElems_cons s s' l :
  json.encodeElems (s :: s' :: l)
  = json.encodeString s ++ "," ++ json.encodeElems (s' :: l).
Proof. reflexivity. Qed.

(** The array decoder reads back the elements, in order. *)
Lemma decodeElems_encodeElems l : forall fuel,
  l <> [] ->
  Forall (fun s => utf8.ValidString s = true) l ->
  (length l <= fuel)%nat ->
  json.decodeElems fuel (json.encodeElems l ++ "]") = Some l.
Proof.
  induction l as [|s l IH]; intros fuel Hne Hvalid Hfuel; [done|].
  apply Forall_cons in Hvalid as [Hs Hl].
  destruct fuel as [|fuel]; [simpl in Hfuel; lia|].
  destruct l as [|s' l].
  - cbn [json.encodeElems json.decodeElems].
    rewrite skipSpace_encodeString, (decodeString_encodeString s "]" Hs).
    reflexivity.
  - rewrite encodeElems_cons. cbn [json.decodeElems].
    rewrite !string_app_assoc.
    rewrite skipSpace_encodeString, (decodeString_encodeString s _ Hs).
    rewrite app_String, app_empty.
    change (json.skipSpace (String "," ?t)) with (String "," t).
    change (code "," =? 0x2C) with true. cbv iota.
    rewrite (IH fuel); [reflexivity | done | exact Hl | simpl in Hfuel |- *; lia].
Qed.

(** [Unmarshal] reads back the slice that [Marshal] wrote, when the
    elements are valid UTF-8. *)
Lemma Unmarshal_encodeSlice l :
  Forall (fun s => utf8.ValidString s = true) l ->
  json.Unmarshal (json.encodeSlice (Some l)) = inl (Some l).
Proof.
  intros Hvalid. unfold json.encodeSlice, json.Unmarshal.
  rewrite app_String, app_empty.
  change (json.skipSpace (String "[" ?t)) with (String "[" t).
  change (code "[" =? 0x5B) with true. cbv iota.
  destruct l as [|s l]; [reflexivity|].
  assert (exists t, json.encodeElems (s :: l) ++ "]" = json.encodeString s ++ t)
    as (t & Ht).
  { destruct l; [by eexists|].
    rewrite encodeElems_cons, !string_app_assoc. by eexists. }
  rewrite Ht, skipSpace_encodeString.
  unfold json.encodeString at 1 3. rewrite app_String.
  change (code json.quote =? 0x5D) with false. cbv iota.
  rewrite <- app_String. fold (json.encodeString s). rewrite <- Ht.
  rewrite decodeElems_encodeElems; [reflexivity | done | exact Hvalid |].
  rewrite length_app_string. pose proof (length_encodeElems (s :: l)). lia.
Qed.

(** C8, as the code has it: for every command vector whose elements
    are valid UTF-8, whatever spaces, quotes, control or shell characters
    they hold, decoding the JSON that [Run] puts in the [command]
    parameter gives the vector back, element for element. *)
Theorem C8_command_round_trip (command : list string) :
  Forall (fun s => utf8.ValidString s = true) command ->
  exists bytes,
    json.Marshal (Some command) = inl bytes
    /\ json.Unmarshal bytes = inl (Some command).
Proof.
  intros Hvalid. eexists. split; [reflexivity|].
  by apply Unmarshal_encodeSlice.
Qed.

(** The encoder's loop does not depend on its fuel once the fuel covers
    the source. *)
Lemma string_loop_fuel n : forall m s,
  (String.length s <= n)%nat -> (String.length s <= m)%nat ->
  json.string_loop n s = json.string_loop m s.
Proof.
  induction n as [|n IH]; intros m s Hn Hm.
  - destruct s; [by destruct m | simpl in Hn; lia].
  - destruct s as [|a s]; [by destruct m|].
    destruct m as [|m]; [simpl in Hm; lia|].
    simpl in Hn, Hm. cbn [json.string_loop]. cbv zeta.
    destruct (code a <? utf8.RuneSelf) eqn:Hascii.
    + rewrite (IH m s) by lia. reflexivity.
    + apply Z.ltb_ge in Hascii.
      destruct (utf8.DecodeRune (String a s)) as [c size] eqn:Hdec.
      assert (1 <= size)%nat as Hsize
        by (destruct (DecodeRune_size a s c size Hdec Hascii) as [[_ ->]|]; lia).
      rewrite (IH m s) by lia.
      rewrite (IH m (skipn_string size (String a s)))
        by (rewrite length_skipn_string; simpl; lia).
      reflexivity.
Qed.

(** ** The command at the sample inputs *)

(** C2 (the code departs from it): the operator's input is a pipe, the
    pod is found and its first container is ready.  [setupTTY] reports
    that no TTY can be used and returns with [Raw] still set, so [Run]
    asks for the size monitor, drops the error stream and opens the
    stream with [Tty] set. *)
Theorem C2_piped_input_streams_as_tty :
  let m := machineOf (completedOpts "web-0" "" (Some pipeIn)) in
  let t := {| tty_In := Some pipeIn; tty_Out := Some ttyOut; tty_Raw := true |} in
  IsTerminalIn t = false
  /\ fst (setupTTY sampleEnv m) = Val t
  /\ fst (Run sampleEnv m) = Val None
  /\ ErrOut (opts (snd (Run sampleEnv m))) = None
  /\ existsb (fun e => match e with
                       | EvWrite _ text =>
                         String.eqb text
                           ("Unable to use a TTY - input is not a terminal or the right kind of file" ++ LF)
                       | _ => false
                       end) (trace (snd (Run sampleEnv m))) = true
  /\ existsb (fun e => match e with EvMonitorSize _ => true | _ => false end)
       (trace (snd (Run sampleEnv m))) = true
  /\ existsb (streamedWith
                {| so_Stdin := Some pipeIn; so_Stdout := Some ttyOut;
                   so_Stderr := None; so_Tty := true;
                   so_TerminalSizeQueue := Some (sizeQueueOf ttyOut) |})
       (trace (snd (Run sampleEnv m))) = true.
Proof. vm_compute. repeat split. Qed.

(** C7 (the code departs from it): no pod argument.  [Complete] fails
    and the handler prints its error, then goes on: [Validate] fails and
    its error is printed too, then [Run] is entered, prints its first
    diagnostic and panics on the pod client that [Complete] never set. *)
Theorem C7_handler_runs_on_after_errors :
  let m := machineOf (NewDebugCmd_opts sampleFlags terminalStreams) in
  fst (Complete sampleEnv [] (-1) m) = Val (Some (Errorf "error pod not specified"))
  /\ fst (NewDebugCmd_Run sampleEnv [] (-1) m) = Panic nilDereference
  /\ trace (snd (NewDebugCmd_Run sampleEnv [] (-1) m))
     = [EvStdout ("hello i'm here, in cmd/ newDebugCmd" ++ LF);
        EvStdout ("hello i'm here, in cmd/ newDebugCmd / Complete" ++ LF);
        EvStdout ("error pod not specified" ++ LF);
        EvStdout ("pod name must be specified" ++ LF);
        EvStdout ("run; function" ++ LF)].
Proof. vm_compute. repeat split. Qed.

(** *** The properties above, at the sample inputs *)

Lemma C1_terminal_mode_restored_witness :
  termios (snd (Run refusingEnv (machineOf (completedOpts "web-0" "" (Some ttyIn)))))
  = cooked
  /\ fst (Run refusingEnv (machineOf (completedOpts "web-0" "" (Some ttyIn))))
     = Val (Some (Errorf "dial tcp 10.0.0.7:10027: connect: connection refused"))
  /\ termios (snd (Safe {| tty_In := Some ttyIn; tty_Out := Some ttyOut; tty_Raw := true |}
                     (fun m => (Panic "boom", withTermios (MakeRaw (MakeRaw cooked)) m))
                     (machineOf zeroDebugOptions)))
     = cooked.
Proof.
  destruct (C1_terminal_mode_restored refusingEnv) as (Hrun & Hsafe & _).
  split; [apply Hrun|]. split; [vm_compute; reflexivity|].
  apply (Hsafe {| tty_In := Some ttyIn; tty_Out := Some ttyOut; tty_Raw := true |}).
  reflexivity.
Defined.

Lemma C3_completed_pod_rejected_witness :
  Run sampleEnv (machineOf (completedOpts "job-0" "" (Some ttyIn)))
  = (Val (Some (PodNotDebuggable PodSucceeded)),
     after (machineOf (completedOpts "job-0" "" (Some ttyIn)))
       [EvStdout ("run; function" ++ LF); EvPodGet "default" "job-0"]).
Proof.
  apply (C3_completed_pod_rejected sampleEnv
           (machineOf (completedOpts "job-0" "" (Some ttyIn)))
           sampleGetter succeededPod);
    [reflexivity | reflexivity | left; reflexivity].
Defined.

Lemma C4_unresolvable_container_rejected_witness :
  getContainerIdByName samplePod "sidecar" = ("", Some (ContainerNotReady "sidecar"))
  /\ fst (Run sampleEnv (machineOf (completedOpts "web-0" "sidecar" (Some ttyIn))))
     = Val (Some (ContainerNotReady "sidecar")).
Proof.
  destruct (C4_unresolvable_container_rejected sampleEnv
              (machineOf (completedOpts "web-0" "sidecar" (Some ttyIn)))
              sampleGetter samplePod "sidecar" (ContainerNotReady "sidecar")
              (Run_prelude (machineOf (completedOpts "web-0" "sidecar" (Some ttyIn)))
                 samplePod))
    as (Hid & Hrun & _).
  - repeat constructor; simpl; intuition discriminate.
  - apply (unresolvable_not_ready samplePod "sidecar"
             (mkContainerStatus "sidecar" false "docker://9a2c"));
      [right; left; reflexivity | reflexivity | reflexivity].
  - reflexivity.
  - reflexivity.
  - reflexivity.
  - reflexivity.
  - split; [exact Hid | by rewrite Hrun].
Defined.

Lemma C5_first_container_by_default_witness :
  Run_containerName samplePod
    (Run_prelude (machineOf (completedOpts "web-0" "" (Some ttyIn))) samplePod)
  = (Val "web",
     after (Run_prelude (machineOf (completedOpts "web-0" "" (Some ttyIn))) samplePod)
       [EvWrite ttyErr (advisoryText "web")]).
Proof.
  apply (C5_first_container_by_default sampleEnv
           (machineOf (completedOpts "web-0" "" (Some ttyIn)))
           sampleGetter samplePod (mkContainer "web") [mkContainer "sidecar"] ttyErr);
    reflexivity.
Defined.

Lemma C9_first_container_needs_one_witness :
  Run sampleEnv (machineOf (completedOpts "empty-0" "" (Some ttyIn)))
  = (Panic indexOutOfRange,
     Run_prelude (machineOf (completedOpts "empty-0" "" (Some ttyIn))) emptyPod).
Proof.
  apply (C9_first_container_needs_one sampleEnv
           (machineOf (completedOpts "empty-0" "" (Some ttyIn)))
           sampleGetter emptyPod);
    reflexivity.
Defined.

Lemma C6_debug_request_witness :
  getContainerIdByName samplePod "web" = ("docker://4f1d", None)
  /\ url.Encode
       (<["command" := [json.encodeSlice (Some ["bash"])]]>
          (<["container" := ["docker://4f1d"]]>
             (<["image" := [defaultImage]]> ∅)))
     = "command=%5B%22bash%22%5D&container=docker%3A%2F%2F4f1d&image=nicolaka%2Fnetshoot%3Alatest".
Proof.
  destruct (C6_debug_request sampleEnv
              (machineOf (completedOpts "web-0" "web" (Some ttyIn)))
              sampleGetter samplePod "web"
              (Run_prelude (machineOf (completedOpts "web-0" "web" (Some ttyIn)))
                 samplePod)
              (mkContainerStatus "web" true "docker://4f1d")
              {| Scheme := "http"; Host := "10.0.0.7:10027"; Path := "";
                 RawQuery := "" |})
    as (Hid & _ & Hquery & _).
  - reflexivity.
  - reflexivity.
  - reflexivity.
  - reflexivity.
  - repeat constructor; simpl; intuition discriminate.
  - left; reflexivity.
  - reflexivity.
  - reflexivity.
  - reflexivity.
  - split; [exact Hid|].
    etransitivity; [exact Hquery | vm_compute; reflexivity].
Defined.

Lemma C10_complete_defaults_witness :
  fst (Complete sampleEnv ["web-0"] (-1)
         (machineOf (NewDebugCmd_opts sampleFlags terminalStreams)))
  = Val None
  /\ Complete_config sampleEnv (NewDebugCmd_opts sampleFlags terminalStreams)
     = emptyConfig.
Proof.
  destruct (C10_complete_defaults sampleEnv ["web-0"] (-1)
              (machineOf (NewDebugCmd_opts sampleFlags terminalStreams)))
    as (_ & Hempty & Hsucceeds & _).
  split.
  - apply (Hsucceeds "web-0" [] sampleFlags "default"
             (Some (restConfig "https://cluster.local")) sampleGetter);
      reflexivity.
  - apply (Hempty (Errorf "open /home/op/.kube/debug-config: no such file or directory")).
    reflexivity.
Defined.

(** C8, as stated, fails: an element that is not valid UTF-8 (the single
    byte 0xFF) is written as the escape of U+FFFD and read back as the
    three bytes of that rune. *)
Lemma C8_invalid_utf8_not_preserved :
  ~ (forall command : list string,
       command <> [] ->
       exists bytes,
         json.Marshal (Some command) = inl bytes
         /\ json.Unmarshal bytes = inl (Some command)).
Proof.
  intros H.
  destruct (H [String "255"%char EmptyString]) as (bytes & Hm & Hu); [done|].
  injection Hm as <-. vm_compute in Hu. discriminate Hu.
Qed.

Lemma C8_command_round_trip_witness :
  json.Unmarshal
    (json.encodeSlice
       (Some ["sh"; "-c"; "echo 'a b' | grep $HOME > /tmp/x; ls *"; "café"]))
  = inl (Some ["sh"; "-c"; "echo 'a b' | grep $HOME > /tmp/x; ls *"; "café"]).
Proof.
  destruct (C8_command_round_trip
              ["sh"; "-c"; "echo 'a b' | grep $HOME > /tmp/x; ls *"; "café"])
    as (bytes & Hm & Hu).
  - repeat constructor.
  - injection Hm as <-. exact Hu.
Defined.
